(** * CachedTensor: a composite proxy tensor and its override registry

    A shallow embedding of [torch/nested/_internal/cached_tensor.py].

    The Python module defines
    - the class [CachedTensor], a wrapper tensor that carries a dict of named
      tensors ([metadata]) and shows the shape, strides, device ... of one of
      them (the one called [source_field]);
    - the module-level registry [_func_registry] of per-operation overrides,
      the context manager [set_func_registry] which swaps it for the extent of
      a [with] block, and the decorator [register_cached_tensor_func] which
      writes into it.

    Python objects are modelled as follows.  Tensors and argument trees are
    values (nothing in this module mutates them).  The registries are dict
    objects that are shared by reference and mutated in place, so they live in
    a store and the global [_func_registry] holds a location.  Callables are
    named by identifiers; what calling one does is given by the host. *)

From stdpp Require Import base option list strings gmap.
From Stdlib Require Import ZArith.

Set Warnings "-register-all".

(** ** Exceptions and results *)

Inductive Exn : Type :=
| KeyError (key : string)
| AttributeError (msg : string)
| HostError (msg : string).

Inductive result (A : Type) : Type :=
| Ok (a : A)
| Raise (e : Exn).
Arguments Ok {A} a.
Arguments Raise {A} e.

Definition rbind {A B} (r : result A) (k : A → result B) : result B :=
  match r with
  | Ok a => k a
  | Raise e => Raise e
  end.

Notation "'try!' x ← r ; k" := (rbind r (fun x => k))
  (at level 100, x name, r at level 99, k at level 200, right associativity,
   format "'[v' 'try!'  x  ←  r ; '/' k ']'").

(** ** Python dicts with string keys

    A dict keeps its keys in insertion order and holds each key once.  The
    order is visible through [keys()], so a dict is an association list;
    [Dict.wf] is the invariant that every Python dict satisfies. *)

Module Dict.
Definition t (V : Type) : Type := list (string * V).

Definition keys {V} (d : t V) : list string := d.*1.

Fixpoint get {V} (d : t V) (k : string) : option V :=
  match d with
  | [] => None
  | (k', v) :: d' => if decide (k = k') then Some v else get d' k
  end.

(** [k in d] *)
Definition contains {V} (d : t V) (k : string) : bool :=
  bool_decide (is_Some (get d k)).

(** [d[k]] *)
Definition getitem {V} (d : t V) (k : string) : result V :=
  match get d k with
  | Some v => Ok v
  | None => Raise (KeyError k)
  end.

(** [d[k] = v]: an existing key keeps its place, a new key goes last. *)
Fixpoint set {V} (d : t V) (k : string) (v : V) : t V :=
  match d with
  | [] => [(k, v)]
  | (k', v') :: d' =>
      if decide (k = k') then (k', v) :: d' else (k', v') :: set d' k v
  end.

Definition wf {V} (d : t V) : Prop := NoDup (keys d).
End Dict.

(** ** Tensors *)

Inductive Layout : Type := strided | sparse_coo | jagged.

(** What a tensor shows of itself: [shape], [stride()], [storage_offset()],
    [device], [layout], [requires_grad], [dtype]. *)
Record TensorAttrs : Type := mkAttrs {
  shape : list Z;
  strides : list Z;
  storage_offset : Z;
  device : string;
  layout : Layout;
  requires_grad : bool;
  dtype : string;
}.

(** The object [torch.Tensor._make_wrapper_subclass] allocates: a tensor of
    class [w_cls] without storage of its own. *)
Record Wrapper : Type := mkWrapper {
  w_cls : string;
  w_attrs : TensorAttrs;
}.

(** A tensor is an ordinary host tensor ([storage] stands for its contents),
    or a [CachedTensor] instance: the wrapper made by [__new__] together with
    the attributes [__init__] sets on it.  The values of [metadata] are
    tensors, and a [CachedTensor] is one, so the two types are defined
    together. *)
Inductive Tensor : Type :=
| Plain (attrs : TensorAttrs) (storage : Z)
| Cached (x : Proxy)
with Proxy : Type :=
| mkProxy (wrapper : Wrapper) (metadata : list (string * Tensor))
    (source_field : string) (nested_int_ref : option Z).

Definition wrapper (x : Proxy) : Wrapper :=
  let 'mkProxy w _ _ _ := x in w.
Definition metadata (x : Proxy) : list (string * Tensor) :=
  let 'mkProxy _ m _ _ := x in m.
Definition source_field (x : Proxy) : string :=
  let 'mkProxy _ _ s _ := x in s.
Definition nested_int_ref (x : Proxy) : option Z :=
  let 'mkProxy _ _ _ n := x in n.

Definition attrs_of (t : Tensor) : TensorAttrs :=
  match t with
  | Plain a _ => a
  | Cached x => w_attrs (wrapper x)
  end.

(** ** Construction: [CachedTensor(metadata, source_field)] *)

(** The keyword arguments [__new__] collects in its local dict [kwargs]. *)
Record WrapperKwargs : Type := mkKwargs {
  kw_strides : list Z;
  kw_storage_offset : Z;
  kw_device : string;
  kw_layout : Layout;
  kw_requires_grad : bool;
  kw_dtype : string;
}.

(** Modelled from the spec: [torch.Tensor._make_wrapper_subclass] is host code
    outside this module.  It allocates a tensor of class [cls] whose shape is
    the second argument and whose strides, storage offset, device, layout,
    requires-gradient flag and element type are the keyword arguments. *)
Definition _make_wrapper_subclass (cls : string) (shape : list Z)
    (kwargs : WrapperKwargs) : Wrapper :=
  {| w_cls := cls;
     w_attrs := {| shape := shape;
                   strides := kw_strides kwargs;
                   storage_offset := kw_storage_offset kwargs;
                   device := kw_device kwargs;
                   layout := kw_layout kwargs;
                   requires_grad := kw_requires_grad kwargs;
                   dtype := kw_dtype kwargs |} |}.

Definition __new__ (cls : string) (metadata : Dict.t Tensor)
    (source_field : string) : result Wrapper :=
  try! source ← Dict.getitem metadata source_field;
  let shape := shape (attrs_of source) in
  let kwargs :=
    {| kw_strides := strides (attrs_of source);
       kw_storage_offset := storage_offset (attrs_of source);
       kw_device := device (attrs_of source);
       kw_layout := layout (attrs_of source);
       kw_requires_grad := requires_grad (attrs_of source);
       kw_dtype := dtype (attrs_of source) |} in
  let out := _make_wrapper_subclass cls shape kwargs in
  Ok out.

(** [__init__] stores its two arguments and clears [nested_int_ref]. *)
Definition __init__ (self : Wrapper) (metadata : Dict.t Tensor)
    (source_field : string) : Proxy :=
  mkProxy self metadata source_field None.

(** Instantiating the class [cls] (a [CachedTensor], or a subclass that
    inherits both methods): [__new__], then [__init__] on its result. *)
Definition instantiate (cls : string) (metadata : Dict.t Tensor)
    (source_field : string) : result Proxy :=
  try! out ← __new__ cls metadata source_field;
  Ok (__init__ out metadata source_field).

Definition CachedTensor (metadata : Dict.t Tensor) (source_field : string)
    : result Proxy :=
  instantiate "CachedTensor" metadata source_field.

(** ** Python values

    What can stand in an argument tree or come out of an attribute lookup:
    atoms, tensors, and the containers the tree-traversal framework walks
    into.  [VObject] is any other host object, named by its identity. *)
Inductive Value : Type :=
| VNone
| VBool (b : bool)
| VInt (z : Z)
| VStr (s : string)
| VObject (id : Z)
| VTensor (t : Tensor)
| VList (l : list Value)
| VTuple (l : list Value)
| VDict (d : list (string * Value)).

(** Induction over argument trees, with the hypothesis for every child of a
    container. *)
Section ValueInduction.
Variable P : Value → Prop.
Hypothesis Hnone : P VNone.
Hypothesis Hbool : ∀ b, P (VBool b).
Hypothesis Hint : ∀ z, P (VInt z).
Hypothesis Hstr : ∀ s, P (VStr s).
Hypothesis Hobject : ∀ id, P (VObject id).
Hypothesis Htensor : ∀ t, P (VTensor t).
Hypothesis Hlist : ∀ l, Forall P l → P (VList l).
Hypothesis Htuple : ∀ l, Forall P l → P (VTuple l).
Hypothesis Hdict : ∀ d, Forall (fun kv => P kv.2) d → P (VDict d).

Fixpoint Value_tree_ind (v : Value) : P v :=
  match v with
  | VNone => Hnone
  | VBool b => Hbool b
  | VInt z => Hint z
  | VStr s => Hstr s
  | VObject id => Hobject id
  | VTensor t => Htensor t
  | VList l =>
      Hlist l ((fix children (l : list Value) : Forall P l :=
                  match l with
                  | [] => Forall_nil_2 P
                  | v :: l' =>
                      Forall_cons_2 P v l' (Value_tree_ind v) (children l')
                  end) l)
  | VTuple l =>
      Htuple l ((fix children (l : list Value) : Forall P l :=
                   match l with
                   | [] => Forall_nil_2 P
                   | v :: l' =>
                       Forall_cons_2 P v l' (Value_tree_ind v) (children l')
                   end) l)
  | VDict d =>
      Hdict d ((fix items (d : list (string * Value))
                  : Forall (fun kv => P kv.2) d :=
                  match d with
                  | [] => Forall_nil_2 _
                  | (k, v) :: d' =>
                      Forall_cons_2 (fun kv => P kv.2) (k, v) d'
                        (Value_tree_ind v) (items d')
                  end) d)
  end.
End ValueInduction.

Definition mapR {A B} (f : A → result B) : list A → result (list B) :=
  fix go (l : list A) : result (list B) :=
    match l with
    | [] => Ok []
    | a :: l' =>
        try! b ← f a;
        try! bs ← go l';
        Ok (b :: bs)
    end.

(** ** Attribute access *)

(** [type(self).__name__] *)
Definition type_name (self : Proxy) : string := w_cls (wrapper self).

Definition __getattr__ (self : Proxy) (name : string) : result Tensor :=
  if Dict.contains (metadata self) name then
    Dict.getitem (metadata self) name
  else
    Raise (AttributeError
             (type_name self +:+ " object has no attribute '" +:+ name +:+ "'")).

(** The attributes [__init__] leaves in the instance's [__dict__]. *)
Definition instance_dict (self : Proxy) : Dict.t Value :=
  [ ("source_field", VStr (source_field self));
    ("metadata", VDict (prod_map id VTensor <$> metadata self));
    ("nested_int_ref", from_option VObject VNone (nested_int_ref self)) ].

Section AttributeLookup.
(** What the classes of the instance define, [torch.Tensor] first of all:
    data descriptors ([shape], [device], [dtype], [grad] ...) and the other
    class attributes (methods such as [stride]).  Both are host code; [None]
    says the class has no attribute of that name. *)
Variable data_descriptor : Proxy → string → option Value.
Variable class_attribute : Proxy → string → option Value.

(** [getattr(self, name)], the attribute lookup of the language: a data
    descriptor of the class, then the instance's [__dict__], then any other
    class attribute; [__getattr__] is called only when all of these fail. *)
Definition getattr (self : Proxy) (name : string) : result Value :=
  match data_descriptor self name with
  | Some v => Ok v
  | None =>
      match Dict.get (instance_dict self) name with
      | Some v => Ok v
      | None =>
          match class_attribute self name with
          | Some v => Ok v
          | None =>
              try! t ← __getattr__ self name;
              Ok (VTensor t)
          end
      end
  end.
End AttributeLookup.

(** ** Flatten and reconstruct *)

Definition __tensor_flatten__ (self : Proxy) : list string * Dict.t string :=
  let ctx := [("source_field", source_field self)] in
  (Dict.keys (metadata self), ctx).

Definition __tensor_unflatten__ (inner_tensors : Dict.t Tensor)
    (meta : Dict.t string) (outer_size outer_stride : option (list Z))
    : result Proxy :=
  try! source_field ← Dict.getitem meta "source_field";
  CachedTensor inner_tensors source_field.

(** Modelled from the spec: the tree-traversal framework is host code outside
    this module.  To rebuild a proxy it takes the keys [flatten] returned,
    pairs each key with a replacement for the component of that name (read
    through [__getattr__]), and hands the resulting dict and the context to
    [unflatten]. *)
Fixpoint collect_inner (callback : string → Tensor → Tensor) (t : Proxy)
    (attrs : list string) (acc : Dict.t Tensor) : result (Dict.t Tensor) :=
  match attrs with
  | [] => Ok acc
  | attr :: rest =>
      try! c ← __getattr__ t attr;
      collect_inner callback t rest (Dict.set acc attr (callback attr c))
  end.

(** Modelled from the spec: the framework's rebuild of a proxy, as described
    at [collect_inner]. *)
Definition transform_subclass (callback : string → Tensor → Tensor)
    (t : Proxy) : result Proxy :=
  let '(attrs, ctx) := __tensor_flatten__ t in
  try! transformed_tensors_dict ← collect_inner callback t attrs [];
  __tensor_unflatten__ transformed_tensors_dict ctx None None.

(** ** Unwrapping an argument tree *)

(** Modelled from the spec: [pytree.tree_map_only] is host code outside this
    module.  [tree_map_only(CachedTensor, func, tree)] walks into lists,
    tuples and dicts, replaces every leaf that is a [CachedTensor] instance
    by [func] of it, and leaves every other leaf as it is.  A tensor is a
    leaf: the walk does not enter the components of a proxy. *)
Fixpoint tree_map_only (func : Proxy → result Value) (tree : Value)
    : result Value :=
  match tree with
  | VTensor (Cached x) => func x
  | VList l =>
      try! l' ← mapR (tree_map_only func) l;
      Ok (VList l')
  | VTuple l =>
      try! l' ← mapR (tree_map_only func) l;
      Ok (VTuple l')
  | VDict d =>
      try! d' ← mapR (fun kv => let '(k, v) := kv in
                                try! v' ← tree_map_only func v;
                                Ok (k, v')) d;
      Ok (VDict d')
  | leaf => Ok leaf
  end.

(** The tuple [args] is given by its elements and the dict [kwargs] by its
    items; mapping over either is mapping over the children. *)
Definition tree_map_only_args (func : Proxy → result Value)
    (args : list Value) : result (list Value) :=
  mapR (tree_map_only func) args.

Definition tree_map_only_kwargs (func : Proxy → result Value)
    (kwargs : Dict.t Value) : result (Dict.t Value) :=
  mapR (fun kv => let '(k, v) := kv in
                  try! v' ← tree_map_only func v;
                  Ok (k, v')) kwargs.

(** [lambda x: x.metadata[x.source_field]] *)
Definition unwrap (x : Proxy) : result Value :=
  try! c ← Dict.getitem (metadata x) (source_field x);
  Ok (VTensor c).

(** ** The registry and its store

    An operation and a callable are named by strings (an operation's
    qualified name, say); a registry is a dict from operations to callables.
    Registries are objects: the store [heap] maps a location to the contents
    of the dict that lives there, and the module global [_func_registry]
    holds the location of the active one. *)

Abbreviation Op := string (only parsing).
Abbreviation Callable := string (only parsing).
Abbreviation loc := positive (only parsing).

Record State (World : Type) : Type := mkState {
  heap : gmap positive (gmap string string);
  _func_registry : positive;
  world : World;
}.
Arguments mkState {World} _ _ _.
Arguments heap {World} _.
Arguments _func_registry {World} _.
Arguments world {World} _.

(** The dict made by [_func_registry: Dict[Any, Callable] = {}] when the
    module is loaded. *)
Definition default_registry : loc := 1%positive.

Definition initial_state {World} (w : World) : State World :=
  {| heap := {[ default_registry := ∅ ]};
     _func_registry := default_registry;
     world := w |}.

(** The contents of the dict at [l]. *)
Definition registry_at {World} (s : State World) (l : loc)
    : gmap string string :=
  default ∅ (heap s !! l).

(** The contents of the dict [_func_registry] refers to. *)
Definition active_registry {World} (s : State World) : gmap string string :=
  registry_at s (_func_registry s).

(** ** Computations: state and exceptions *)

Definition M (World A : Type) : Type := State World → result A * State World.

Section Monad.
Context {World : Type}.

Definition ret {A} (a : A) : M World A := fun s => (Ok a, s).

Definition raise {A} (e : Exn) : M World A := fun s => (Raise e, s).

Definition bind {A B} (m : M World A) (k : A → M World B) : M World B :=
  fun s =>
    match m s with
    | (Ok a, s') => k a s'
    | (Raise e, s') => (Raise e, s')
    end.

Definition lift {A} (r : result A) : M World A := fun s => (r, s).

(** [try: body finally: handler].  The handler runs on both ways out of
    the body; the body's outcome stands unless the handler itself raises. *)
Definition try_finally {A} (body : M World A) (handler : M World unit)
    : M World A :=
  fun s =>
    match body s with
    | (Ok a, s') =>
        match handler s' with
        | (Ok _, s'') => (Ok a, s'')
        | (Raise e, s'') => (Raise e, s'')
        end
    | (Raise e, s') =>
        match handler s' with
        | (Ok _, s'') => (Raise e, s'')
        | (Raise e', s'') => (Raise e', s'')
        end
    end.

(** Reading and assigning the module global [_func_registry]. *)
Definition get_global : M World loc := fun s => (Ok (_func_registry s), s).

Definition with_global (l : loc) (s : State World) : State World :=
  {| heap := heap s; _func_registry := l; world := world s |}.

Definition set_global (l : loc) : M World unit :=
  fun s => (Ok tt, with_global l s).

(** [d[k] = v] on the dict object at [l]. *)
Definition setitem (l : loc) (k : Op) (v : Callable) : M World unit :=
  fun s => (Ok tt, {| heap := <[l := <[k := v]> (registry_at s l)]> (heap s);
                      _func_registry := _func_registry s;
                      world := world s |}).

(** The contents of the dict object at [l]. *)
Definition deref (l : loc) : M World (gmap string string) :=
  fun s => (Ok (registry_at s l), s).
End Monad.

Notation "'do!' x ← m ; k" := (bind m (fun x => k))
  (at level 100, x name, m at level 99, k at level 200, right associativity,
   format "'[v' 'do!'  x  ←  m ; '/' k ']'").
Notation "m ;; k" := (bind m (fun _ => k))
  (at level 100, k at level 200, right associativity).

(** ** Scoped activation and registration *)

Section Registry.
Context {World : Type}.

(** [with set_func_registry(registry): body].  The generator runs up to its
    [yield] on entry; the body of the [with] block runs at the [yield]; on
    the way out, by return or by exception, the generator is resumed inside
    its [try] and the [finally] clause runs. *)
Definition set_func_registry {A} (registry : loc) (body : M World A)
    : M World A :=
  (* Save the current registry to restore it later *)
  do! old_registry ← get_global;
  (* Set the new registry *)
  set_global registry;;
  try_finally body
    (* Restore the old registry *)
    (set_global old_registry).

(** [register_cached_tensor_func(aten_op)] is the decorator [wrapper]; the
    global [_func_registry] is read when [wrapper] is applied. *)
Definition register_cached_tensor_func (aten_op : Op)
    : Callable → M World Callable :=
  let wrapper (func : Callable) : M World Callable :=
    do! registry ← get_global;
    setitem registry aten_op func;;
    ret func in
  wrapper.
End Registry.

(** ** The dispatch entry point *)

Section Dispatch.
Context {World : Type}.

(** The host: what calling an operation on positional and keyword
    arguments does, what calling a registered callable on the operation
    followed by such arguments does, and what the statement
    [import torch.nested._internal.ops] does (it loads the module that
    registers overrides, if it is not loaded yet). *)
Variable call_op : Op → list Value → Dict.t Value → M World Value.
Variable call_func :
  Callable → Op → list Value → Dict.t Value → M World Value.
Variable import_ops : M World unit.

Definition __torch_dispatch__ (op : Op) (types : list string)
    (args : list Value) (kwargs : option (Dict.t Value)) : M World Value :=
  (* Ensure that any registered ops are loaded *)
  import_ops;;
  let kwargs := match kwargs with
                | None => []
                | Some kwargs => kwargs
                end in
  do! registry ← get_global;
  do! funcs ← deref registry;
  match funcs !! op with
  | Some func => call_func func op args kwargs
  | None =>
      do! unwrapped_args ← lift (tree_map_only_args unwrap args);
      do! unwrapped_kwargs ← lift (tree_map_only_kwargs unwrap kwargs);
      call_op op unwrapped_args unwrapped_kwargs
  end.
End Dispatch.

(** ** Specification-side notions *)

(** A leaf of an argument tree that is not a proxy. *)
Definition other_leaf (v : Value) : Prop :=
  match v with
  | VTensor (Cached _) | VList _ | VTuple _ | VDict _ => False
  | _ => True
  end.

(** [unwraps_to tree tree'] follows the words of the specification: [tree']
    is [tree] with every proxy in it, at any depth of lists, tuples and
    dicts, replaced by that proxy's own source component, and nothing else
    changed. *)
Inductive unwraps_to : Value → Value → Prop :=
| unwraps_proxy x c :
    Dict.get (metadata x) (source_field x) = Some c →
    unwraps_to (VTensor (Cached x)) (VTensor c)
| unwraps_leaf v :
    other_leaf v → unwraps_to v v
| unwraps_list l l' :
    Forall2 unwraps_to l l' → unwraps_to (VList l) (VList l')
| unwraps_tuple l l' :
    Forall2 unwraps_to l l' → unwraps_to (VTuple l) (VTuple l')
| unwraps_dict d d' :
    Forall2 (fun kv kv' => kv.1 = kv'.1 ∧ unwraps_to kv.2 kv'.2) d d' →
    unwraps_to (VDict d) (VDict d').

Definition unwraps_to_items (kv kv' : string * Value) : Prop :=
  kv.1 = kv'.1 ∧ unwraps_to kv.2 kv'.2.

(** Every proxy in the tree has its source component, so that unwrapping it
    finds one. *)
Fixpoint sources_present (v : Value) : bool :=
  match v with
  | VTensor (Cached x) =>
      bool_decide (is_Some (Dict.get (metadata x) (source_field x)))
  | VList l | VTuple l => forallb sources_present l
  | VDict d => forallb (fun kv => let '(_, v) := kv in sources_present v) d
  | _ => true
  end.

Definition sources_present_items (kwargs : Dict.t Value) : bool :=
  forallb (fun kv => let '(_, v) := kv in sources_present v) kwargs.

(** What construction leaves true of a proxy: the source component is there
    and the proxy shows the source's attributes. *)
Definition shows_source (p : Proxy) : Prop :=
  ∃ source, Dict.get (metadata p) (source_field p) = Some source
            ∧ w_attrs (wrapper p) = attrs_of source.

(** The dict the framework builds from the components [d] of a proxy when
    it replaces each by [callback] of its name and itself. *)
Definition transformed (callback : string → Tensor → Tensor)
    (d : Dict.t Tensor) : Dict.t Tensor :=
  (fun kv => (kv.1, callback kv.1 kv.2)) <$> d.

(** A tree without a proxy anywhere in it. *)
Fixpoint no_proxy (v : Value) : bool :=
  match v with
  | VTensor (Cached _) => false
  | VList l | VTuple l => forallb no_proxy l
  | VDict d => forallb (fun kv => let '(_, v) := kv in no_proxy v) d
  | _ => true
  end.

Definition no_proxy_items (kwargs : Dict.t Value) : bool :=
  forallb (fun kv => let '(_, v) := kv in no_proxy v) kwargs.

(** ** Printing *)

Section Repr.
(** [repr] of a tensor is the host's. *)
Variable repr : Tensor → string.

Definition __repr__ (self : Proxy) : result string :=
  try! source ← Dict.getitem (metadata self) (source_field self);
  Ok ("CachedTensor(" +:+ repr source +:+ ")").
End Repr.

(** ** Sample data *)

Module Sample.
Definition cpu_float (shape strides : list Z) : TensorAttrs :=
  {| shape := shape; strides := strides; storage_offset := 0;
     device := "cpu"; layout := strided; requires_grad := false;
     dtype := "float32" |}.

(** [values] of shape [4, 3] and [offsets] of shape [5]. *)
Definition V : Tensor := Plain (cpu_float [4; 3] [3; 1])%Z 100.
Definition O : Tensor :=
  Plain {| shape := [5%Z]; strides := [1%Z]; storage_offset := 0;
           device := "cpu"; layout := strided; requires_grad := false;
           dtype := "int64" |} 200.

(** A second component is the source. *)
Definition components : Dict.t Tensor := [("offsets", O); ("values", V)].

Definition p : Proxy :=
  mkProxy (mkWrapper "CachedTensor" (cpu_float [4; 3] [3; 1])%Z)
    components "values" None.

(** A component stored under the name of an instance attribute. *)
Definition shadowed : Proxy :=
  mkProxy (mkWrapper "CachedTensor" (cpu_float [4; 3] [3; 1])%Z)
    [("metadata", V)] "metadata" None.

Definition no_attribute : Proxy → string → option Value := fun _ _ => None.

(** A host without effects: an operation answers with the tuple of its
    name and arguments, a registered callable with the list of its own
    name, the operation and the arguments; the import does nothing. *)
Definition call_op (op : Op) (args : list Value) (kwargs : Dict.t Value)
    : M unit Value :=
  ret (VTuple [VStr op; VTuple args; VDict kwargs]).

Definition call_func (func : Callable) (op : Op) (args : list Value)
    (kwargs : Dict.t Value) : M unit Value :=
  ret (VList [VStr func; VStr op; VTuple args; VDict kwargs]).

Definition import_ops : M unit unit := ret tt.

(** The state when the module has been loaded, and the state with a second,
    empty dict [R] allocated by a caller at location 2. *)
Definition s0 : State unit := initial_state tt.

Definition R : loc := 2%positive.

Definition s1 : State unit :=
  {| heap := <[R := ∅]> (heap s0);
     _func_registry := _func_registry s0;
     world := tt |}.

(** A caller activates [R] and applies the decorator inside the block:
    [with set_func_registry(R): register_cached_tensor_func(op)(func)]. *)
Definition registered_in_scope : result Callable * State unit :=
  set_func_registry R
    (register_cached_tensor_func "aten.detach" "detach_impl") s1.

(** The state with an override for [aten.detach] in the default registry. *)
Definition s_detach : State unit :=
  (register_cached_tensor_func "aten.detach" "detach_impl" s0).2.

(** A proxy whose dict has lost the source component since construction
    (the dict is shared with the caller, who may delete from it). *)
Definition broken : Proxy :=
  mkProxy (mkWrapper "CachedTensor" (cpu_float [4; 3] [3; 1])%Z)
    [("offsets", O)] "values" None.


Definition repr (t : Tensor) : string :=
  match t with
  | Plain _ _ => "tensor(...)"
  | Cached _ => "CachedTensor(...)"
  end.


(** A proxy whose source component is itself a proxy, and one that has lost
    its own source at that. *)
Definition outer : Proxy :=
  mkProxy (mkWrapper "CachedTensor" (cpu_float [4; 3] [3; 1])%Z)
    [("inner", Cached broken)] "inner" None.

(** The override for [aten.detach] is in the default registry, and a caller
    holds an empty dict [R]. *)
Definition s2 : State unit :=
  {| heap := <[R := ∅]> (heap s_detach);
     _func_registry := _func_registry s_detach;
     world := tt |}.

(** The default registry is empty, and the caller's dict [R] holds an
    override for [aten.detach]. *)
Definition s3 : State unit :=
  {| heap := <[R := {[ "aten.detach" := "detach_impl" ]}]> (heap s0);
     _func_registry := _func_registry s0;
     world := tt |}.
End Sample.

(** * Properties *)

(** ** Dicts *)

Section DictFacts.
Context {V : Type}.
Implicit Types (d : Dict.t V) (k : string) (v : V).

Lemma dict_get_None d k : Dict.get d k = None ↔ k ∉ Dict.keys d.
Proof.
  induction d as [|[k' v'] d IH]; simpl.
  - split; [intros _; apply not_elem_of_nil | done].
  - destruct (decide (k = k')) as [->|Hne].
    + split; [done | intros H; destruct H; left].
    + rewrite IH, not_elem_of_cons. tauto.
Qed.

Lemma dict_get_is_Some d k : is_Some (Dict.get d k) ↔ k ∈ Dict.keys d.
Proof.
  rewrite <- not_eq_None_Some, dict_get_None.
  split; [apply dec_stable | auto].
Qed.

Lemma dict_contains_true d k : Dict.contains d k = true ↔ k ∈ Dict.keys d.
Proof.
  unfold Dict.contains. rewrite bool_decide_eq_true. apply dict_get_is_Some.
Qed.

Lemma dict_contains_false d k : Dict.contains d k = false ↔ k ∉ Dict.keys d.
Proof.
  rewrite <- dict_contains_true. destruct (Dict.contains d k); naive_solver.
Qed.

Lemma dict_getitem_Some d k v :
  Dict.get d k = Some v → Dict.getitem d k = Ok v.
Proof. unfold Dict.getitem. by intros ->. Qed.

Lemma dict_getitem_None d k :
  Dict.get d k = None → Dict.getitem d k = Raise (KeyError k).
Proof. unfold Dict.getitem. by intros ->. Qed.

(** Assigning a key the dict does not hold appends the item. *)
Lemma dict_set_fresh d k v :
  k ∉ Dict.keys d → Dict.set d k v = d ++ [(k, v)].
Proof.
  induction d as [|[k' v'] d IH]; simpl; [done |].
  rewrite not_elem_of_cons. intros [Hne Hnotin].
  destruct (decide (k = k')); [done |]. by rewrite IH.
Qed.

(** Reading a key that first occurs right after a prefix without it. *)
Lemma dict_get_middle d1 d2 k v :
  k ∉ Dict.keys d1 → Dict.get (d1 ++ (k, v) :: d2) k = Some v.
Proof.
  induction d1 as [|[k' v'] d1 IH]; simpl.
  - intros _. by destruct (decide (k = k)).
  - rewrite not_elem_of_cons. intros [Hne Hnotin].
    destruct (decide (k = k')); [done | auto].
Qed.
End DictFacts.

(** Membership of a literal key in a literal dict, by running the lookup. *)
Ltac dict_key :=
  first [ apply dict_get_None; vm_compute; reflexivity
        | apply dict_get_is_Some; vm_compute; eauto ].

(** ** Construction *)

Lemma new_Some cls md sf source :
  Dict.get md sf = Some source →
  __new__ cls md sf = Ok (mkWrapper cls (attrs_of source)).
Proof.
  intros Hget. unfold __new__. rewrite (dict_getitem_Some _ _ _ Hget). simpl.
  unfold _make_wrapper_subclass. simpl. by destruct (attrs_of source).
Qed.

Lemma instantiate_Some cls md sf source :
  Dict.get md sf = Some source →
  instantiate cls md sf = Ok (mkProxy (mkWrapper cls (attrs_of source)) md sf None).
Proof. intros Hget. unfold instantiate. by rewrite (new_Some _ _ _ _ Hget). Qed.

Lemma instantiate_shows_source cls md sf p :
  instantiate cls md sf = Ok p → shows_source p.
Proof.
  unfold instantiate, __new__, Dict.getitem.
  destruct (Dict.get md sf) as [source|] eqn:Hget; simpl; [|done].
  intros [= <-]. exists source. split; [done |]. by destruct (attrs_of source).
Qed.

(** C5.  When [source_field] is a key of [metadata] (which is then not
    empty), instantiating the class succeeds, and the shape, strides, storage
    offset, device, layout, requires-gradient flag and element type of the new
    proxy are those of [metadata[source_field]]. *)
Theorem create_copies_source_attrs cls (md : Dict.t Tensor) sf :
  sf ∈ Dict.keys md →
  ∃ source p,
    Dict.get md sf = Some source
    ∧ instantiate cls md sf = Ok p
    ∧ shape (attrs_of (Cached p)) = shape (attrs_of source)
    ∧ strides (attrs_of (Cached p)) = strides (attrs_of source)
    ∧ storage_offset (attrs_of (Cached p)) = storage_offset (attrs_of source)
    ∧ device (attrs_of (Cached p)) = device (attrs_of source)
    ∧ layout (attrs_of (Cached p)) = layout (attrs_of source)
    ∧ requires_grad (attrs_of (Cached p)) = requires_grad (attrs_of source)
    ∧ dtype (attrs_of (Cached p)) = dtype (attrs_of source).
Proof.
  intros Hin. apply dict_get_is_Some in Hin as [source Hget].
  exists source. eexists. split; [exact Hget |].
  split; [exact (instantiate_Some cls _ _ _ Hget) |].
  simpl. repeat split.
Qed.

Lemma create_copies_source_attrs_witness :
  "values" ∈ Dict.keys Sample.components
  ∧ ∃ source p,
      Dict.get Sample.components "values" = Some source
      ∧ instantiate "CachedTensor" Sample.components "values" = Ok p
      ∧ shape (attrs_of (Cached p)) = shape (attrs_of source)
      ∧ strides (attrs_of (Cached p)) = strides (attrs_of source)
      ∧ storage_offset (attrs_of (Cached p)) = storage_offset (attrs_of source)
      ∧ device (attrs_of (Cached p)) = device (attrs_of source)
      ∧ layout (attrs_of (Cached p)) = layout (attrs_of source)
      ∧ requires_grad (attrs_of (Cached p)) = requires_grad (attrs_of source)
      ∧ dtype (attrs_of (Cached p)) = dtype (attrs_of source).
Proof.
  assert (Hin : "values" ∈ Dict.keys Sample.components)
    by dict_key.
  split; [exact Hin |].
  exact (create_copies_source_attrs "CachedTensor" Sample.components "values" Hin).
Defined.

(** The proxy of the specification's example has shape [4, 3]. *)
Example create_sample :
  CachedTensor Sample.components "values" = Ok Sample.p
  ∧ shape (attrs_of (Cached Sample.p)) = [4; 3]%Z.
Proof. split; reflexivity. Qed.

(** C7.  When [source_field] is not a key of [metadata], whatever else the
    dict holds, [__new__] raises [KeyError] for that key before a wrapper is
    made, [__init__] does not run, and the instantiation yields no proxy. *)
Theorem create_missing_source cls (md : Dict.t Tensor) sf :
  sf ∉ Dict.keys md →
  __new__ cls md sf = Raise (KeyError sf)
  ∧ instantiate cls md sf = Raise (KeyError sf)
  ∧ ∀ p, instantiate cls md sf ≠ Ok p.
Proof.
  intros Hnotin. apply dict_get_None in Hnotin.
  assert (Hnew : __new__ cls md sf = Raise (KeyError sf)).
  { unfold __new__. by rewrite (dict_getitem_None _ _ Hnotin). }
  split; [exact Hnew |].
  unfold instantiate. rewrite Hnew. simpl. split; [done | by intros p].
Qed.

Lemma create_missing_source_witness :
  ("lengths" ∉ Dict.keys Sample.components)
  ∧ __new__ "CachedTensor" Sample.components "lengths"
    = Raise (KeyError "lengths")
  ∧ instantiate "CachedTensor" Sample.components "lengths"
    = Raise (KeyError "lengths")
  ∧ ∀ p, instantiate "CachedTensor" Sample.components "lengths" ≠ Ok p.
Proof.
  assert (Hnotin : "lengths" ∉ Dict.keys Sample.components)
    by dict_key.
  split; [exact Hnotin |].
  exact (create_missing_source "CachedTensor" Sample.components "lengths" Hnotin).
Defined.

(** ** Attribute access *)

Lemma getattr_hook_component p name c :
  Dict.get (metadata p) name = Some c → __getattr__ p name = Ok c.
Proof.
  intros Hget. unfold __getattr__.
  assert (Hc : Dict.contains (metadata p) name = true)
    by (apply dict_contains_true, dict_get_is_Some; eauto).
  rewrite Hc. by apply dict_getitem_Some.
Qed.

Lemma getattr_hook_missing p name :
  Dict.get (metadata p) name = None →
  __getattr__ p name
  = Raise (AttributeError
             (type_name p +:+ " object has no attribute '" +:+ name +:+ "'")).
Proof.
  intros Hget. unfold __getattr__.
  assert (Hc : Dict.contains (metadata p) name = false)
    by (by apply dict_contains_false, dict_get_None).
  by rewrite Hc.
Qed.

(** C6, as the code has it.  For a name that neither the instance's own
    attributes ([source_field], [metadata], [nested_int_ref]) nor the classes
    of the instance define, the lookup returns [metadata[name]] when [name]
    is a key of [metadata], and otherwise raises [AttributeError] with a
    message that names the type of the proxy and the name asked for. *)
Theorem getattr_undefined_name data_descriptor class_attribute p name :
  data_descriptor p name = None →
  name ∉ Dict.keys (instance_dict p) →
  class_attribute p name = None →
  getattr data_descriptor class_attribute p name
  = match Dict.get (metadata p) name with
    | Some c => Ok (VTensor c)
    | None =>
        Raise (AttributeError
          (type_name p +:+ " object has no attribute '" +:+ name +:+ "'"))
    end.
Proof.
  intros Hdd Hinst Hca. unfold getattr.
  apply dict_get_None in Hinst. rewrite Hdd, Hinst, Hca.
  destruct (Dict.get (metadata p) name) as [c|] eqn:Hget.
  - by rewrite (getattr_hook_component _ _ _ Hget).
  - by rewrite (getattr_hook_missing _ _ Hget).
Qed.

Lemma getattr_undefined_name_witness :
  getattr Sample.no_attribute Sample.no_attribute Sample.p "offsets"
  = Ok (VTensor Sample.O)
  ∧ getattr Sample.no_attribute Sample.no_attribute Sample.p "lengths"
    = Raise (AttributeError "CachedTensor object has no attribute 'lengths'").
Proof.
  split.
  - refine (getattr_undefined_name Sample.no_attribute Sample.no_attribute
              Sample.p "offsets" eq_refl _ eq_refl).
    dict_key.
  - refine (getattr_undefined_name Sample.no_attribute Sample.no_attribute
              Sample.p "lengths" eq_refl _ eq_refl).
    dict_key.
Defined.

(** C6, as stated, fails when a component is stored under the name of an
    attribute the instance has of its own: the lookup finds the instance
    attribute and never reaches [__getattr__].  Here the only component is
    called [metadata]; the lookup of that name returns the whole dict. *)
Lemma getattr_shadowed_component :
  CachedTensor [("metadata", Sample.V)] "metadata" = Ok Sample.shadowed
  ∧ Dict.get (metadata Sample.shadowed) "metadata" = Some Sample.V
  ∧ getattr Sample.no_attribute Sample.no_attribute Sample.shadowed "metadata"
    = Ok (VDict [("metadata", VTensor Sample.V)])
  ∧ getattr Sample.no_attribute Sample.no_attribute Sample.shadowed "metadata"
    ≠ Ok (VTensor Sample.V).
Proof. repeat split. discriminate. Qed.

(** ** Flatten and reconstruct *)

Section RoundTrip.
Variable callback : string → Tensor → Tensor.

Lemma transformed_keys d : Dict.keys (transformed callback d) = Dict.keys d.
Proof.
  unfold Dict.keys, transformed. rewrite <- list_fmap_compose.
  by apply list_fmap_ext.
Qed.

(** Walking the keys in order rebuilds the dict item by item: with the
    items before [rest] already collected, the walk over the keys of
    [rest] ends with all of them. *)
Lemma collect_inner_rebuilds t rest collected :
  Dict.wf (metadata t) →
  metadata t = collected ++ rest →
  collect_inner callback t (Dict.keys rest) (transformed callback collected)
  = Ok (transformed callback (metadata t)).
Proof.
  intros Hwf. revert collected.
  induction rest as [|[k c] rest IH]; intros collected Hsplit; simpl.
  - by rewrite Hsplit, app_nil_r.
  - assert (Hfresh : k ∉ Dict.keys collected).
    { unfold Dict.wf, Dict.keys in *. rewrite Hsplit, fmap_app in Hwf.
      apply NoDup_app in Hwf as (_ & Hdisj & _).
      intros Hin. apply (Hdisj _ Hin). simpl. left. }
    assert (Hget : Dict.get (metadata t) k = Some c)
      by (rewrite Hsplit; by apply dict_get_middle).
    rewrite (getattr_hook_component _ _ _ Hget). simpl.
    rewrite dict_set_fresh by (by rewrite transformed_keys).
    replace (transformed callback collected ++ [(k, callback k c)])
      with (transformed callback (collected ++ [(k, c)]))
      by (unfold transformed; by rewrite fmap_app).
    apply IH. by rewrite Hsplit, <- app_assoc.
Qed.
End RoundTrip.

Lemma transformed_id d : transformed (fun _ c => c) d = d.
Proof.
  unfold transformed. rewrite <- (list_fmap_id d) at 2.
  apply list_fmap_ext. by intros _ [k c] _.
Qed.

Lemma collect_inner_unchanged p :
  Dict.wf (metadata p) →
  collect_inner (fun _ c => c) p (Dict.keys (metadata p)) [] = Ok (metadata p).
Proof.
  intros Hwf.
  pose proof (collect_inner_rebuilds (fun _ c => c) p (metadata p) [] Hwf eq_refl)
    as Hwalk.
  by rewrite !transformed_id in Hwalk.
Qed.

Lemma unflatten_own_components p source outer_size outer_stride :
  Dict.get (metadata p) (source_field p) = Some source →
  __tensor_unflatten__ (metadata p) (__tensor_flatten__ p).2
    outer_size outer_stride
  = Ok (mkProxy (mkWrapper "CachedTensor" (attrs_of source))
          (metadata p) (source_field p) None).
Proof.
  intros Hget. unfold __tensor_unflatten__, CachedTensor. simpl.
  by rewrite (instantiate_Some _ _ _ _ Hget).
Qed.

(** C4.  [flatten] returns the keys of [metadata] in the dict's order and a
    context that holds [source_field].  Pairing each of these keys with the
    component of that name, unchanged, gives back the dict of components,
    and [unflatten] of that dict and that context (whatever the outer size
    and stride passed along) succeeds and gives a proxy with the same keys,
    the same components, the same [source_field] and the same shape, strides,
    storage offset, device, layout, requires-gradient flag and element type.
    The number of components and the place of the source among them play no
    role. *)
Theorem flatten_unflatten_roundtrip p :
  Dict.wf (metadata p) →
  shows_source p →
  __tensor_flatten__ p
  = (Dict.keys (metadata p), [("source_field", source_field p)])
  ∧ collect_inner (fun _ c => c) p (__tensor_flatten__ p).1 []
    = Ok (metadata p)
  ∧ ∃ p',
      (∀ outer_size outer_stride,
         __tensor_unflatten__ (metadata p) (__tensor_flatten__ p).2
           outer_size outer_stride = Ok p')
      ∧ transform_subclass (fun _ c => c) p = Ok p'
      ∧ Dict.keys (metadata p') = Dict.keys (metadata p)
      ∧ metadata p' = metadata p
      ∧ source_field p' = source_field p
      ∧ attrs_of (Cached p') = attrs_of (Cached p).
Proof.
  intros Hwf (source & Hget & Hattrs).
  split; [reflexivity |]. split; [by apply collect_inner_unchanged |].
  eexists. split; [| split].
  - intros outer_size outer_stride. by apply unflatten_own_components.
  - unfold transform_subclass. simpl.
    rewrite (collect_inner_unchanged p Hwf). simpl.
    by apply unflatten_own_components.
  - simpl. by rewrite Hattrs.
Qed.

Lemma flatten_unflatten_roundtrip_witness :
  __tensor_flatten__ Sample.p
  = (["offsets"; "values"], [("source_field", "values")])
  ∧ collect_inner (fun _ c => c) Sample.p (__tensor_flatten__ Sample.p).1 []
    = Ok Sample.components
  ∧ ∃ p',
      (∀ outer_size outer_stride,
         __tensor_unflatten__ Sample.components (__tensor_flatten__ Sample.p).2
           outer_size outer_stride = Ok p')
      ∧ transform_subclass (fun _ c => c) Sample.p = Ok p'
      ∧ Dict.keys (metadata p') = ["offsets"; "values"]
      ∧ metadata p' = Sample.components
      ∧ source_field p' = "values"
      ∧ attrs_of (Cached p') = attrs_of (Cached Sample.p).
Proof.
  refine (flatten_unflatten_roundtrip Sample.p _ _).
  - unfold Dict.wf. compute_done.
  - exists Sample.V. split; reflexivity.
Defined.

(** On the sample, where the source is the second of two components, the
    rebuilt proxy is the proxy itself. *)
Example roundtrip_sample :
  transform_subclass (fun _ c => c) Sample.p = Ok Sample.p.
Proof. reflexivity. Qed.

(** ** The registry *)

Section RegistryFacts.
Context {World : Type}.
Implicit Types (s : State World) (l : loc).

Lemma with_global_global l s : _func_registry (with_global l s) = l.
Proof. reflexivity. Qed.

Lemma with_global_twice l l' s :
  with_global l (with_global l' s) = with_global l s.
Proof. reflexivity. Qed.

Lemma with_global_same s : with_global (_func_registry s) s = s.
Proof. by destruct s. Qed.

Lemma registry_at_with_global l l' s :
  registry_at (with_global l s) l' = registry_at s l'.
Proof. reflexivity. Qed.

(** What applying the decorator does to the state. *)
Lemma register_run (op : Op) (func : Callable) s :
  register_cached_tensor_func op func s
  = (Ok func,
     {| heap := <[_func_registry s := <[op := func]> (active_registry s)]>
                  (heap s);
        _func_registry := _func_registry s;
        world := world s |}).
Proof. reflexivity. Qed.

Lemma register_lookup (op : Op) (func : Callable) s :
  active_registry (register_cached_tensor_func op func s).2 !! op
  = Some func.
Proof.
  rewrite register_run. unfold active_registry, registry_at. simpl.
  rewrite lookup_insert_eq. simpl. apply lookup_insert_eq.
Qed.

Lemma try_finally_set_global {A} (body : M World A) l s :
  try_finally body (set_global l) s
  = ((body s).1, with_global l (body s).2).
Proof.
  unfold try_finally, set_global. by destruct (body s) as [[a|e] s'].
Qed.

Lemma set_func_registry_run {A} l (body : M World A) s :
  set_func_registry l body s
  = ((body (with_global l s)).1,
     with_global (_func_registry s) (body (with_global l s)).2).
Proof.
  unfold set_func_registry, bind, get_global. simpl.
  apply try_finally_set_global.
Qed.
End RegistryFacts.

(** C9.  The decorator made for any operation hands back the very callable
    it was given, after storing it under the operation in the dict that
    [_func_registry] refers to. *)
Theorem decorator_returns_func {World} (op : Op) (func : Callable)
    (s : State World) :
  (register_cached_tensor_func op func s).1 = Ok func
  ∧ active_registry (register_cached_tensor_func op func s).2 !! op
    = Some func.
Proof. split; [reflexivity | apply register_lookup]. Qed.

(** C8, as the code has it.  Applying the decorator raises nothing, whether
    or not the operation had an entry; it sets the entry of the operation in
    the dict that [_func_registry] refers to at that moment, to the callable
    given, so that of two registrations the later one stands; every other
    entry of that dict, every other dict and the global itself stay as they
    were. *)
Theorem register_writes_active_registry {World} (op : Op)
    (func : Callable) (s : State World) :
  let s' := (register_cached_tensor_func op func s).2 in
  (register_cached_tensor_func op func s).1 = Ok func
  ∧ _func_registry s' = _func_registry s
  ∧ registry_at s' (_func_registry s) = <[op := func]> (active_registry s)
  ∧ (∀ l, l ≠ _func_registry s → registry_at s' l = registry_at s l)
  ∧ (∀ func2,
       (register_cached_tensor_func op func2 s').1 = Ok func2
       ∧ active_registry (register_cached_tensor_func op func2 s').2 !! op
         = Some func2).
Proof.
  intros s'. subst s'.
  split; [reflexivity |]. split; [reflexivity |]. split; [| split].
  - rewrite register_run. unfold registry_at. simpl.
    by rewrite lookup_insert_eq.
  - intros l Hne. rewrite register_run. unfold registry_at. simpl.
    by rewrite lookup_insert_ne.
  - intros func2. split; [reflexivity | apply register_lookup].
Qed.

(** Outside any scope the active dict is the one the module was loaded
    with, and the entry goes there. *)
Example register_sample_default :
  _func_registry Sample.s0 = default_registry
  ∧ registry_at Sample.s_detach default_registry !! "aten.detach"
    = Some "detach_impl".
Proof. vm_compute. split; reflexivity. Qed.

(** C8, as stated, fails inside a scope: the decorator writes to the dict
    that is active when it is applied, not to the dict the module was loaded
    with.  A caller activates its own empty dict [R] and registers an
    override inside the [with] block: the entry is in [R], the default
    registry is still empty, and after the block the default registry is the
    active one again. *)
Lemma register_inside_scope_misses_default :
  Sample.registered_in_scope.1 = Ok "detach_impl"
  ∧ registry_at Sample.registered_in_scope.2 default_registry !! "aten.detach"
    = None
  ∧ registry_at Sample.registered_in_scope.2 Sample.R !! "aten.detach"
    = Some "detach_impl"
  ∧ _func_registry Sample.registered_in_scope.2 = default_registry.
Proof. vm_compute. repeat split. Qed.

(** C3.  A [with set_func_registry(R1)] block runs its body from the state
    in which [_func_registry] is [R1], passes on the body's outcome, a value
    or an exception alike, and leaves [_func_registry] as it was on entry,
    whatever the body did to it.  A block inside a block for [R2] restores
    [R2] for the rest of the outer body (which an exception from the inner
    block skips), and the outer block restores what was active before it. *)
Theorem set_func_registry_restores {World A B} (R1 R2 : loc)
    (body : M World A) (rest : A → M World B) (s : State World) :
  set_func_registry R1 body s
  = ((body (with_global R1 s)).1,
     with_global (_func_registry s) (body (with_global R1 s)).2)
  ∧ _func_registry (set_func_registry R1 body s).2 = _func_registry s
  ∧ set_func_registry R2 (do! a ← set_func_registry R1 body; rest a) s
    = match body (with_global R1 s) with
      | (Ok a, s1) =>
          ((rest a (with_global R2 s1)).1,
           with_global (_func_registry s) (rest a (with_global R2 s1)).2)
      | (Raise e, s1) => (Raise e, with_global (_func_registry s) s1)
      end
  ∧ _func_registry
      (set_func_registry R2 (do! a ← set_func_registry R1 body; rest a) s).2
    = _func_registry s
  ∧ set_func_registry R2
      (do! active_inside ← set_func_registry R1 get_global;
       do! active_after ← get_global;
       ret (active_inside, active_after)) s
    = (Ok (R1, R2), s).
Proof.
  split; [apply set_func_registry_run |].
  split; [by rewrite set_func_registry_run |].
  split; [| split].
  - rewrite set_func_registry_run. unfold bind at 1 2.
    rewrite set_func_registry_run. rewrite !with_global_twice. simpl.
    by destruct (body (with_global R1 s)) as [[a|e] s1].
  - by rewrite set_func_registry_run.
  - rewrite set_func_registry_run. unfold bind.
    rewrite set_func_registry_run. by destruct s.
Qed.

(** ** Unwrapping *)

Lemma mapR_Forall2 {A B} (f : A → result B) l l' :
  Forall2 (fun a b => f a = Ok b) l l' → mapR f l = Ok l'.
Proof.
  induction 1 as [|a b l l' Hab _ IH]; simpl; [done |].
  by rewrite Hab, IH.
Qed.

Lemma Forall_Forall2_impl {A B} (R Q : A → B → Prop) l l' :
  Forall (fun a => ∀ b, R a b → Q a b) l → Forall2 R l l' → Forall2 Q l l'.
Proof.
  intros Hall Hrel. revert Hall.
  induction Hrel as [|a b l l' Hab _ IH]; intros Hall; [constructor |].
  apply Forall_cons in Hall as [Ha Hl]. constructor; auto.
Qed.

Lemma Forall_exists_Forall2 {A B} (P : A → Prop) (R : A → B → Prop) l :
  Forall (fun a => P a → ∃ b, R a b) l → Forall P l → ∃ l', Forall2 R l l'.
Proof.
  induction l as [|a l IH]; intros Hall HP; [by exists [] |].
  apply Forall_cons in Hall as [Ha Hl]. apply Forall_cons in HP as [HPa HPl].
  destruct (Ha HPa) as [b Hb]. destruct (IH Hl HPl) as [l' Hl'].
  exists (b :: l'). by constructor.
Qed.

(** The walk computes the tree the specification describes. *)
Lemma tree_map_only_unwraps v :
  ∀ v', unwraps_to v v' → tree_map_only unwrap v = Ok v'.
Proof.
  induction v as [| | | | |t|l IH|l IH|d IH] using Value_tree_ind;
    intros v' Hrel;
    inversion Hrel as [x c Hc|v0 Hleaf|l0 l' Hl|l0 l' Hl|d0 d' Hd];
    subst; simpl in *; try done.
  - unfold unwrap. by rewrite (dict_getitem_Some _ _ _ Hc).
  - by destruct t.
  - rewrite (mapR_Forall2 _ l l'); [done |].
    by eapply Forall_Forall2_impl.
  - rewrite (mapR_Forall2 _ l l'); [done |].
    by eapply Forall_Forall2_impl.
  - rewrite (mapR_Forall2 _ d d'); [done |].
    eapply Forall_Forall2_impl; [| exact Hd].
    eapply Forall_impl; [exact IH |].
    intros [k v] IHv [k' v'] [Hk Hv]. simpl in *. subst k'.
    by rewrite (IHv _ Hv).
Qed.

Lemma forallb_true_Forall {A} (f : A → bool) l :
  forallb f l = true → Forall (fun a => f a = true) l.
Proof.
  induction l as [|a l IH]; simpl; [constructor |].
  intros [Ha Hl]%andb_prop. constructor; auto.
Qed.

(** A tree whose proxies all have their source component has an unwrapped
    tree. *)
Lemma unwraps_to_total v :
  sources_present v = true → ∃ v', unwraps_to v v'.
Proof.
  induction v as [| | | | |t|l IH|l IH|d IH] using Value_tree_ind;
    simpl; intros Hpresent;
    try (eexists; by apply unwraps_leaf).
  - destruct t as [attrs storage|x].
    + eexists. by apply unwraps_leaf.
    + apply bool_decide_eq_true in Hpresent as [c Hc].
      exists (VTensor c). by apply unwraps_proxy.
  - apply forallb_true_Forall in Hpresent.
    destruct (Forall_exists_Forall2 _ unwraps_to l IH Hpresent) as [l' Hl'].
    exists (VList l'). by apply unwraps_list.
  - apply forallb_true_Forall in Hpresent.
    destruct (Forall_exists_Forall2 _ unwraps_to l IH Hpresent) as [l' Hl'].
    exists (VTuple l'). by apply unwraps_tuple.
  - apply forallb_true_Forall in Hpresent.
    destruct (Forall_exists_Forall2
                (fun kv => (let '(_, v) := kv in sources_present v) = true)
                (fun kv kv' => kv.1 = kv'.1 ∧ unwraps_to kv.2 kv'.2) d)
      as [d' Hd']; [| exact Hpresent |].
    + eapply Forall_impl; [exact IH |].
      intros [k v] IHv Hv. destruct (IHv Hv) as [v' Hv'].
      by exists (k, v').
    + exists (VDict d'). by apply unwraps_dict.
Qed.

Lemma unwraps_to_total_args args :
  forallb sources_present args = true → ∃ args', Forall2 unwraps_to args args'.
Proof.
  intros Hpresent%forallb_true_Forall.
  eapply Forall_exists_Forall2; [| exact Hpresent].
  apply Forall_forall. intros v _. apply unwraps_to_total.
Qed.

Lemma unwraps_to_total_kwargs kwargs :
  sources_present_items kwargs = true →
  ∃ kwargs', Forall2 unwraps_to_items kwargs kwargs'.
Proof.
  intros Hpresent%forallb_true_Forall.
  eapply Forall_exists_Forall2; [| exact Hpresent].
  apply Forall_forall. intros [k v] _ Hv.
  destruct (unwraps_to_total v Hv) as [v' Hv']. by exists (k, v').
Qed.

Lemma tree_map_only_args_unwraps args args' :
  Forall2 unwraps_to args args' → tree_map_only_args unwrap args = Ok args'.
Proof.
  intros Hrel. apply mapR_Forall2.
  eapply Forall2_impl; [exact Hrel |]. intros v v'. apply tree_map_only_unwraps.
Qed.

Lemma tree_map_only_kwargs_unwraps kwargs kwargs' :
  Forall2 unwraps_to_items kwargs kwargs' →
  tree_map_only_kwargs unwrap kwargs = Ok kwargs'.
Proof.
  intros Hrel. apply mapR_Forall2.
  eapply Forall2_impl; [exact Hrel |].
  intros [k v] [k' v'] [Hk Hv]. simpl in *. subst k'.
  by rewrite (tree_map_only_unwraps _ _ Hv).
Qed.

(** ** Dispatch *)

Section DispatchFacts.
Context {World : Type}.
Variable call_op : Op → list Value → Dict.t Value → M World Value.
Variable call_func :
  Callable → Op → list Value → Dict.t Value → M World Value.
Variable import_ops : M World unit.

(** The override branch. *)
Lemma dispatch_registered_run op types args kwargs func
    (s s1 : State World) :
  import_ops s = (Ok tt, s1) →
  active_registry s1 !! op = Some func →
  __torch_dispatch__ call_op call_func import_ops op types args kwargs s
  = call_func func op args (default [] kwargs) s1.
Proof.
  intros Himport Hfunc. unfold __torch_dispatch__, bind.
  rewrite Himport. simpl. unfold active_registry in Hfunc.
  rewrite Hfunc. by destruct kwargs.
Qed.

(** The fallback branch. *)
Lemma dispatch_unregistered_run op types args kwargs args' kwargs'
    (s s1 : State World) :
  import_ops s = (Ok tt, s1) →
  active_registry s1 !! op = None →
  Forall2 unwraps_to args args' →
  Forall2 unwraps_to_items (default [] kwargs) kwargs' →
  __torch_dispatch__ call_op call_func import_ops op types args kwargs s
  = call_op op args' kwargs' s1.
Proof.
  intros Himport Hnone Hargs Hkwargs. unfold __torch_dispatch__, bind.
  rewrite Himport. simpl. unfold active_registry in Hnone.
  rewrite Hnone. unfold lift.
  rewrite (tree_map_only_args_unwraps _ _ Hargs).
  destruct kwargs as [kwargs|]; simpl in Hkwargs;
    by rewrite (tree_map_only_kwargs_unwraps _ _ Hkwargs).
Qed.
End DispatchFacts.

(** C1.  When, the import done, the operation has no entry in the active
    registry and every proxy in the arguments has its source component,
    dispatch ends in the host's call of the operation on the positional and
    keyword arguments in which every proxy, at any depth, stands replaced by
    its own [metadata[source_field]], in the state the import left, and the
    outcome of that call is the outcome of dispatch.  For a single proxy
    argument this is the call of the operation on the proxy's source
    component. *)
Theorem dispatch_unregistered_unwraps {World}
    (call_op : Op → list Value → Dict.t Value → M World Value)
    (call_func : Callable → Op → list Value → Dict.t Value → M World Value)
    (import_ops : M World unit)
    (op : Op) (types : list string) (args : list Value)
    (kwargs : option (Dict.t Value)) (s s1 : State World) :
  import_ops s = (Ok tt, s1) →
  active_registry s1 !! op = None →
  forallb sources_present args = true →
  sources_present_items (default [] kwargs) = true →
  (∃ args' kwargs',
     Forall2 unwraps_to args args'
     ∧ Forall2 unwraps_to_items (default [] kwargs) kwargs'
     ∧ __torch_dispatch__ call_op call_func import_ops op types args kwargs s
       = call_op op args' kwargs' s1)
  ∧ (∀ p c,
       Dict.get (metadata p) (source_field p) = Some c →
       __torch_dispatch__ call_op call_func import_ops op types
         [VTensor (Cached p)] None s
       = call_op op [VTensor c] [] s1).
Proof.
  intros Himport Hnone Hargs Hkwargs. split.
  - destruct (unwraps_to_total_args _ Hargs) as [args' Hargs'].
    destruct (unwraps_to_total_kwargs _ Hkwargs) as [kwargs' Hkwargs'].
    exists args', kwargs'. split; [done |]. split; [done |].
    by apply dispatch_unregistered_run.
  - intros p c Hc. apply dispatch_unregistered_run; [done | done | | constructor].
    constructor; [by apply unwraps_proxy | constructor].
Qed.

Lemma dispatch_unregistered_unwraps_witness :
  (∃ args' kwargs',
     Forall2 unwraps_to
       [VTensor (Cached Sample.p); VList [VInt 1; VTensor (Cached Sample.p)]]
       args'
     ∧ Forall2 unwraps_to_items
         (default [] (Some [("other", VTensor (Cached Sample.shadowed))]))
         kwargs'
     ∧ __torch_dispatch__ Sample.call_op Sample.call_func Sample.import_ops
         "aten.sin" []
         [VTensor (Cached Sample.p); VList [VInt 1; VTensor (Cached Sample.p)]]
         (Some [("other", VTensor (Cached Sample.shadowed))]) Sample.s0
       = Sample.call_op "aten.sin" args' kwargs' Sample.s0)
  ∧ (∀ p c,
       Dict.get (metadata p) (source_field p) = Some c →
       __torch_dispatch__ Sample.call_op Sample.call_func Sample.import_ops
         "aten.sin" [] [VTensor (Cached p)] None Sample.s0
       = Sample.call_op "aten.sin" [VTensor c] [] Sample.s0).
Proof.
  refine (dispatch_unregistered_unwraps Sample.call_op Sample.call_func
            Sample.import_ops "aten.sin" []
            [VTensor (Cached Sample.p);
             VList [VInt 1; VTensor (Cached Sample.p)]]
            (Some [("other", VTensor (Cached Sample.shadowed))])
            Sample.s0 Sample.s0 eq_refl _ _ _);
    vm_compute; reflexivity.
Defined.

(** The fallback on the sample proxy: the operation sees [values], the
    source, and the result is what the host's call returns. *)
Example dispatch_sample_fallback :
  __torch_dispatch__ Sample.call_op Sample.call_func Sample.import_ops
    "aten.sin" [] [VTensor (Cached Sample.p)] None Sample.s0
  = (Ok (VTuple [VStr "aten.sin"; VTuple [VTensor Sample.V]; VDict []]),
     Sample.s0).
Proof. vm_compute. reflexivity. Qed.

(** C2.  When, the import done, the operation has an entry in the active
    registry, dispatch ends in the call of the registered callable on the
    operation and the arguments as they came in, proxies included, and the
    outcome of that call is the outcome of dispatch. *)
Theorem dispatch_registered_passes_through {World}
    (call_op : Op → list Value → Dict.t Value → M World Value)
    (call_func : Callable → Op → list Value → Dict.t Value → M World Value)
    (import_ops : M World unit)
    (op : Op) (types : list string) (args : list Value)
    (kwargs : option (Dict.t Value)) (func : Callable) (s s1 : State World) :
  import_ops s = (Ok tt, s1) →
  active_registry s1 !! op = Some func →
  __torch_dispatch__ call_op call_func import_ops op types args kwargs s
  = call_func func op args (default [] kwargs) s1.
Proof. apply dispatch_registered_run. Qed.

Lemma dispatch_registered_passes_through_witness :
  __torch_dispatch__ Sample.call_op Sample.call_func Sample.import_ops
    "aten.detach" [] [VTensor (Cached Sample.p)]
    (Some [("other", VTensor (Cached Sample.p))]) Sample.s_detach
  = Sample.call_func "detach_impl" "aten.detach" [VTensor (Cached Sample.p)]
      [("other", VTensor (Cached Sample.p))] Sample.s_detach.
Proof.
  refine (dispatch_registered_passes_through Sample.call_op Sample.call_func
            Sample.import_ops "aten.detach" [] [VTensor (Cached Sample.p)]
            (Some [("other", VTensor (Cached Sample.p))]) "detach_impl"
            Sample.s_detach Sample.s_detach eq_refl _).
  vm_compute; reflexivity.
Defined.

(** C10.  Dispatch with [kwargs] absent is dispatch with the empty dict: the
    registered callable, if there is one, is called with no keyword
    arguments, and otherwise the operation is. *)
Theorem dispatch_kwargs_none {World}
    (call_op : Op → list Value → Dict.t Value → M World Value)
    (call_func : Callable → Op → list Value → Dict.t Value → M World Value)
    (import_ops : M World unit)
    (op : Op) (types : list string) (args : list Value) (s : State World) :
  __torch_dispatch__ call_op call_func import_ops op types args None s
  = __torch_dispatch__ call_op call_func import_ops op types args (Some []) s
  ∧ (∀ s1 func,
       import_ops s = (Ok tt, s1) →
       active_registry s1 !! op = Some func →
       __torch_dispatch__ call_op call_func import_ops op types args None s
       = call_func func op args [] s1)
  ∧ (∀ s1 args',
       import_ops s = (Ok tt, s1) →
       active_registry s1 !! op = None →
       Forall2 unwraps_to args args' →
       __torch_dispatch__ call_op call_func import_ops op types args None s
       = call_op op args' [] s1).
Proof.
  split; [reflexivity |]. split.
  - intros s1 func Himport Hfunc.
    by rewrite (dispatch_registered_run _ _ _ _ _ _ _ _ _ _ Himport Hfunc).
  - intros s1 args' Himport Hnone Hargs.
    apply dispatch_unregistered_run; [done | done | done | constructor].
Qed.

(** With an override registered for the operation and [kwargs] absent, the
    registered callable receives the proxy itself and an empty dict of
    keyword arguments. *)
Example dispatch_sample_override :
  __torch_dispatch__ Sample.call_op Sample.call_func Sample.import_ops
    "aten.detach" [] [VTensor (Cached Sample.p)] None Sample.s_detach
  = (Ok (VList [VStr "detach_impl"; VStr "aten.detach";
                VTuple [VTensor (Cached Sample.p)]; VDict []]),
     Sample.s_detach).
Proof. vm_compute. reflexivity. Qed.

(** * Further properties of the proxy *)

Lemma dict_get_elem_of {V} (d : Dict.t V) k v :
  Dict.get d k = Some v → (k, v) ∈ d.
Proof.
  induction d as [|[k' v'] d IH]; simpl; [done |].
  destruct (decide (k = k')) as [->|Hne].
  - intros [= ->]. left.
  - intros Hget. right. auto.
Qed.


(** X1.  [__getattr__] answers exactly for the keys of [metadata], and what
    it answers with is the component stored under that key: it never makes
    up a tensor and never answers for a name that is not a key. *)
Theorem getattr_hook_answers_iff_key p name :
  ((∃ c, __getattr__ p name = Ok c) ↔ name ∈ Dict.keys (metadata p))
  ∧ (∀ c, __getattr__ p name = Ok c →
          Dict.get (metadata p) name = Some c ∧ (name, c) ∈ metadata p).
Proof.
  assert (Hsound : ∀ c, __getattr__ p name = Ok c →
                        Dict.get (metadata p) name = Some c).
  { intros c. unfold __getattr__, Dict.getitem.
    destruct (Dict.contains (metadata p) name); [| done].
    by destruct (Dict.get (metadata p) name) as [c'|]; intros [= ->]. }
  split.
  - split.
    + intros [c Hc]. apply dict_get_is_Some. exists c. by apply Hsound.
    + intros [c Hc]%dict_get_is_Some. exists c.
      by apply getattr_hook_component.
  - intros c Hc. split; [by apply Hsound |].
    by apply dict_get_elem_of, Hsound.
Qed.

(** X2.  A proxy made by the constructor always prints: [__repr__] finds the
    source component and gives [CachedTensor(...)] around the source's own
    [repr], with the name [CachedTensor] also for an instance of a subclass
    and whatever the other components are. *)
Theorem repr_of_constructed repr cls (md : Dict.t Tensor) sf p :
  instantiate cls md sf = Ok p →
  ∃ source,
    Dict.get md sf = Some source
    ∧ __repr__ repr p = Ok ("CachedTensor(" +:+ repr source +:+ ")").
Proof.
  unfold instantiate, __new__, Dict.getitem.
  destruct (Dict.get md sf) as [source|] eqn:Hget; simpl; [| done].
  intros [= <-]. exists source. split; [done |].
  unfold __repr__, __init__. simpl. by rewrite (dict_getitem_Some _ _ _ Hget).
Qed.

Lemma repr_of_constructed_witness :
  ∃ source,
    Dict.get Sample.components "values" = Some source
    ∧ __repr__ Sample.repr
        (mkProxy (mkWrapper "MyCachedTensor"
                    (Sample.cpu_float [4; 3] [3; 1])%Z)
           Sample.components "values" None)
      = Ok ("CachedTensor(" +:+ Sample.repr source +:+ ")").
Proof.
  exact (repr_of_constructed Sample.repr "MyCachedTensor" Sample.components
           "values"
           (mkProxy (mkWrapper "MyCachedTensor"
                       (Sample.cpu_float [4; 3] [3; 1])%Z)
              Sample.components "values" None) eq_refl).
Defined.

(** X3.  [__tensor_unflatten__] fails with [KeyError] in two cases and does
    not look for a substitute in either: the context has no [source_field]
    entry (the error names [source_field]), or it has one but the dict of
    inner tensors has no tensor under that name (the error names the missing
    component), whatever other tensors the dict holds. *)
Theorem unflatten_missing_key (inner_tensors : Dict.t Tensor)
    (meta : Dict.t string) outer_size outer_stride :
  ("source_field" ∉ Dict.keys meta →
   __tensor_unflatten__ inner_tensors meta outer_size outer_stride
   = Raise (KeyError "source_field"))
  ∧ (∀ sf, Dict.get meta "source_field" = Some sf →
           sf ∉ Dict.keys inner_tensors →
           __tensor_unflatten__ inner_tensors meta outer_size outer_stride
           = Raise (KeyError sf)).
Proof.
  unfold __tensor_unflatten__. split.
  - intros Hmeta%dict_get_None. by rewrite (dict_getitem_None _ _ Hmeta).
  - intros sf Hmeta Hinner%dict_get_None.
    rewrite (dict_getitem_Some _ _ _ Hmeta). simpl.
    unfold CachedTensor, instantiate, __new__.
    by rewrite (dict_getitem_None _ _ Hinner).
Qed.

(** X4.  Whatever [__tensor_unflatten__] returns is a proxy as the
    constructor makes them: of class [CachedTensor], with [nested_int_ref]
    cleared, holding the dict of inner tensors it was given and the
    [source_field] of the context, and showing the attributes of the inner
    tensor of that name.  The outer size and stride it is passed have no
    part in the result. *)
Theorem unflatten_result (inner_tensors : Dict.t Tensor)
    (meta : Dict.t string) outer_size outer_stride p :
  __tensor_unflatten__ inner_tensors meta outer_size outer_stride = Ok p →
  type_name p = "CachedTensor"
  ∧ nested_int_ref p = None
  ∧ metadata p = inner_tensors
  ∧ Dict.get meta "source_field" = Some (source_field p)
  ∧ (∃ source, Dict.get inner_tensors (source_field p) = Some source
               ∧ attrs_of (Cached p) = attrs_of source)
  ∧ (∀ outer_size' outer_stride',
       __tensor_unflatten__ inner_tensors meta outer_size' outer_stride'
       = Ok p).
Proof.
  unfold __tensor_unflatten__, Dict.getitem.
  destruct (Dict.get meta "source_field") as [sf|] eqn:Hmeta; simpl; [| done].
  unfold CachedTensor, instantiate, __new__, Dict.getitem.
  destruct (Dict.get inner_tensors sf) as [source|] eqn:Hget; simpl; [| done].
  intros [= <-]. simpl. repeat split; try done.
  exists source. split; [done |]. by destruct (attrs_of source).
Qed.

Lemma unflatten_result_witness :
  type_name Sample.p = "CachedTensor"
  ∧ nested_int_ref Sample.p = None
  ∧ metadata Sample.p = Sample.components
  ∧ Dict.get [("source_field", "values")] "source_field"
    = Some (source_field Sample.p)
  ∧ (∃ source, Dict.get Sample.components (source_field Sample.p) = Some source
               ∧ attrs_of (Cached Sample.p) = attrs_of source)
  ∧ (∀ outer_size' outer_stride',
       __tensor_unflatten__ Sample.components [("source_field", "values")]
         outer_size' outer_stride'
       = Ok Sample.p).
Proof.
  exact (unflatten_result Sample.components [("source_field", "values")]
           (Some [9; 9]%Z) None Sample.p eq_refl).
Defined.




(** X6.  A proxy made by the constructor unwraps without error, to its
    source component, and that tensor has the very shape, strides, storage
    offset, device, layout, requires-gradient flag and element type the
    proxy shows: what an operation sees on the fallback path looks like the
    proxy it was called on. *)
Theorem constructed_unwraps_to_lookalike cls (md : Dict.t Tensor) sf p :
  instantiate cls md sf = Ok p →
  ∃ source,
    Dict.get md sf = Some source
    ∧ unwrap p = Ok (VTensor source)
    ∧ tree_map_only unwrap (VTensor (Cached p)) = Ok (VTensor source)
    ∧ attrs_of source = attrs_of (Cached p)
    ∧ sources_present (VTensor (Cached p)) = true.
Proof.
  unfold instantiate, __new__, Dict.getitem.
  destruct (Dict.get md sf) as [source|] eqn:Hget; simpl; [| done].
  intros [= <-]. exists source. split; [done |].
  unfold unwrap, __init__. simpl. rewrite (dict_getitem_Some _ _ _ Hget).
  simpl. repeat split; try done.
  - by destruct (attrs_of source).
  - rewrite Hget. by apply bool_decide_eq_true.
Qed.

Lemma constructed_unwraps_to_lookalike_witness :
  ∃ source,
    Dict.get Sample.components "values" = Some source
    ∧ unwrap Sample.p = Ok (VTensor source)
    ∧ tree_map_only unwrap (VTensor (Cached Sample.p)) = Ok (VTensor source)
    ∧ attrs_of source = attrs_of (Cached Sample.p)
    ∧ sources_present (VTensor (Cached Sample.p)) = true.
Proof.
  exact (constructed_unwraps_to_lookalike "CachedTensor" Sample.components
           "values" Sample.p eq_refl).
Defined.

Lemma unflatten_missing_key_witness :
  __tensor_unflatten__ Sample.components [] None None
  = Raise (KeyError "source_field")
  ∧ __tensor_unflatten__ Sample.components [("source_field", "lengths")]
      None None
    = Raise (KeyError "lengths").
Proof.
  split.
  - refine (proj1 (unflatten_missing_key Sample.components [] None None) _).
    dict_key.
  - refine (proj2 (unflatten_missing_key Sample.components
                     [("source_field", "lengths")] None None)
              "lengths" eq_refl _).
    dict_key.
Defined.



(** X17.  What goes into the constructor comes out of the accessor: on a
    proxy made from a dict, [__getattr__] returns for every key of the dict
    the very tensor the dict held, the source and the others alike, and the
    proxy holds the dict as it was given. *)
Theorem constructed_components_readable cls (md : Dict.t Tensor) sf p :
  instantiate cls md sf = Ok p →
  metadata p = md
  ∧ source_field p = sf
  ∧ nested_int_ref p = None
  ∧ type_name p = cls
  ∧ (∀ name c, Dict.get md name = Some c → __getattr__ p name = Ok c)
  ∧ (∀ name, name ∉ Dict.keys md →
       __getattr__ p name
       = Raise (AttributeError
                  (cls +:+ " object has no attribute '" +:+ name +:+ "'"))).
Proof.
  unfold instantiate, __new__, Dict.getitem.
  destruct (Dict.get md sf) as [source|] eqn:Hget; simpl; [| done].
  intros [= <-]. repeat split.
  - intros name c Hc. by apply getattr_hook_component.
  - intros name Hname%dict_contains_false.
    unfold __getattr__. simpl. by rewrite Hname.
Qed.

Lemma constructed_components_readable_witness :
  metadata Sample.p = Sample.components
  ∧ source_field Sample.p = "values"
  ∧ nested_int_ref Sample.p = None
  ∧ type_name Sample.p = "CachedTensor"
  ∧ (∀ name c, Dict.get Sample.components name = Some c →
               __getattr__ Sample.p name = Ok c)
  ∧ (∀ name, name ∉ Dict.keys Sample.components →
       __getattr__ Sample.p name
       = Raise (AttributeError
                  ("CachedTensor" +:+ " object has no attribute '"
                   +:+ name +:+ "'"))).
Proof.
  exact (constructed_components_readable "CachedTensor" Sample.components
           "values" Sample.p eq_refl).
Defined.

(** * Further properties of unwrapping *)

Lemma mapR_Ok_Forall2 {A B} (f : A → result B) l l' :
  mapR f l = Ok l' → Forall2 (fun a b => f a = Ok b) l l'.
Proof.
  revert l'. induction l as [|a l IH]; simpl; intros l'.
  - intros [= <-]. constructor.
  - destruct (f a) as [b|e] eqn:Hfa; simpl; [| done].
    destruct (mapR f l) as [bs|e] eqn:Hl; simpl; [| done].
    intros [= <-]. constructor; auto.
Qed.

(** Where the first child without its source fails, the whole list does. *)
Lemma mapR_KeyError {A B} (f : A → result B) (present : A → bool) l :
  Forall (fun a => present a = true → ∃ b, f a = Ok b) l →
  Forall (fun a => present a = false → ∃ k, f a = Raise (KeyError k)) l →
  forallb present l = false →
  ∃ k, mapR f l = Raise (KeyError k).
Proof.
  induction l as [|a l IH]; simpl; [done |].
  intros [Hok Hoks]%Forall_cons [Hraise Hraises]%Forall_cons Hfalse.
  destruct (present a) eqn:Ha; simpl in Hfalse.
  - destruct (Hok eq_refl) as [b ->]. simpl.
    destruct (IH Hoks Hraises Hfalse) as [k ->]. by exists k.
  - destruct (Hraise eq_refl) as [k ->]. by exists k.
Qed.

Lemma tree_map_only_present v :
  sources_present v = true → ∃ v', tree_map_only unwrap v = Ok v'.
Proof.
  intros [v' Hv']%unwraps_to_total. exists v'.
  by apply tree_map_only_unwraps.
Qed.

Lemma tree_map_only_absent v :
  sources_present v = false → ∃ k, tree_map_only unwrap v = Raise (KeyError k).
Proof.
  induction v as [| | | | |t|l IH|l IH|d IH] using Value_tree_ind;
    simpl; intros Habsent; try done.
  - destruct t as [attrs storage|x]; [done |].
    apply bool_decide_eq_false in Habsent.
    unfold unwrap, Dict.getitem.
    destruct (Dict.get (metadata x) (source_field x)) as [c|] eqn:Hget.
    + destruct Habsent. by exists c.
    + by exists (source_field x).
  - destruct (mapR_KeyError (tree_map_only unwrap) sources_present l)
      as [k ->]; [| exact IH | exact Habsent | by exists k].
    apply Forall_forall. intros v _. apply tree_map_only_present.
  - destruct (mapR_KeyError (tree_map_only unwrap) sources_present l)
      as [k ->]; [| exact IH | exact Habsent | by exists k].
    apply Forall_forall. intros v _. apply tree_map_only_present.
  - destruct (mapR_KeyError
                (fun kv : string * Value =>
                   let '(k, v) := kv in
                   try! v' ← tree_map_only unwrap v; Ok (k, v'))
                (fun kv : string * Value =>
                   let '(_, v) := kv in sources_present v) d)
      as [k ->]; [| | exact Habsent | by exists k].
    + apply Forall_forall. intros [k v] _ Hv.
      destruct (tree_map_only_present v Hv) as [v' ->]. by exists (k, v').
    + eapply Forall_impl; [exact IH |].
      intros [k v] IHv Hv. simpl in IHv.
      destruct (IHv Hv) as [k' ->]. by exists k'.
Qed.

Lemma tree_map_only_args_absent args :
  forallb sources_present args = false →
  ∃ k, tree_map_only_args unwrap args = Raise (KeyError k).
Proof.
  intros Habsent. unfold tree_map_only_args.
  apply (mapR_KeyError _ sources_present); [| | exact Habsent].
  - apply Forall_forall. intros v _. apply tree_map_only_present.
  - apply Forall_forall. intros v _. apply tree_map_only_absent.
Qed.

Lemma tree_map_only_kwargs_absent kwargs :
  sources_present_items kwargs = false →
  ∃ k, tree_map_only_kwargs unwrap kwargs = Raise (KeyError k).
Proof.
  intros Habsent. unfold tree_map_only_kwargs.
  apply (mapR_KeyError _ (fun kv : string * Value =>
                            let '(_, v) := kv in sources_present v));
    [| | exact Habsent].
  - apply Forall_forall. intros [k v] _ Hv.
    destruct (tree_map_only_present v Hv) as [v' ->]. by exists (k, v').
  - apply Forall_forall. intros [k v] _ Hv.
    destruct (tree_map_only_absent v Hv) as [k' ->]. by exists k'.
Qed.

(** X7.  The walk with the unwrapping function succeeds exactly on the
    trees in which every proxy has its source component, its result is then
    the tree with every proxy replaced by its source and nothing else
    changed, and on every other tree it raises [KeyError]: no other error
    comes out of it and no proxy is skipped. *)
Theorem tree_map_only_unwrap_refines v :
  (∀ v', tree_map_only unwrap v = Ok v' ↔ unwraps_to v v')
  ∧ ((∃ v', tree_map_only unwrap v = Ok v') ↔ sources_present v = true)
  ∧ ((∃ k, tree_map_only unwrap v = Raise (KeyError k))
     ↔ sources_present v = false).
Proof.
  assert (Hsucc : ∀ v', tree_map_only unwrap v = Ok v' →
                        sources_present v = true).
  { intros v' Hv'. destruct (sources_present v) eqn:Hp; [done |].
    destruct (tree_map_only_absent v Hp) as [k Hk]. congruence. }
  split; [| split].
  - intros v'. split; [| apply tree_map_only_unwraps].
    intros Hv'. destruct (unwraps_to_total v (Hsucc _ Hv')) as [v'' Hv''].
    pose proof (tree_map_only_unwraps _ _ Hv'') as Hrun.
    rewrite Hv' in Hrun. by injection Hrun as ->.
  - split; [intros [v' Hv']; by eapply Hsucc | apply tree_map_only_present].
  - split; [| apply tree_map_only_absent].
    intros [k Hk]. destruct (sources_present v) eqn:Hp; [| done].
    destruct (tree_map_only_present v Hp) as [v' Hv']. congruence.
Qed.

Lemma mapR_id {A} (f : A → result A) l :
  Forall (fun a => f a = Ok a) l → mapR f l = Ok l.
Proof.
  induction 1 as [|a l Ha _ IH]; simpl; [done |]. by rewrite Ha, IH.
Qed.

Lemma Forall_modus_ponens {A} (P Q : A → Prop) l :
  Forall (fun a => P a → Q a) l → Forall P l → Forall Q l.
Proof.
  induction 1 as [|a l Ha _ IH]; intros HP; [constructor |].
  apply Forall_cons in HP as [HPa HPl]. constructor; auto.
Qed.

(** The walk leaves a tree without proxies as it is, whatever the function
    it would apply to one. *)
Lemma tree_map_only_no_proxy func v :
  no_proxy v = true → tree_map_only func v = Ok v.
Proof.
  induction v as [| | | | |t|l IH|l IH|d IH] using Value_tree_ind;
    simpl; intros Hfree; try done.
  - by destruct t.
  - apply forallb_true_Forall in Hfree. rewrite mapR_id; [done |].
    exact (Forall_modus_ponens _ _ _ IH Hfree).
  - apply forallb_true_Forall in Hfree. rewrite mapR_id; [done |].
    exact (Forall_modus_ponens _ _ _ IH Hfree).
  - apply forallb_true_Forall in Hfree. rewrite mapR_id; [done |].
    eapply Forall_modus_ponens; [| exact Hfree].
    eapply Forall_impl; [exact IH |].
    intros [k v] IHv Hv. simpl in IHv. by rewrite (IHv Hv).
Qed.

Section DispatchFurther.
Context {World : Type}.
Variable call_op : Op → list Value → Dict.t Value → M World Value.
Variable call_func :
  Callable → Op → list Value → Dict.t Value → M World Value.
Variable import_ops : M World unit.

(** The fallback branch up to the call of the operation. *)
Lemma dispatch_unregistered_steps op types args kwargs (s s1 : State World) :
  import_ops s = (Ok tt, s1) →
  active_registry s1 !! op = None →
  __torch_dispatch__ call_op call_func import_ops op types args kwargs s
  = match tree_map_only_args unwrap args with
    | Ok args' =>
        match tree_map_only_kwargs unwrap (default [] kwargs) with
        | Ok kwargs' => call_op op args' kwargs' s1
        | Raise e => (Raise e, s1)
        end
    | Raise e => (Raise e, s1)
    end.
Proof.
  intros Himport Hnone. unfold __torch_dispatch__, bind.
  rewrite Himport. simpl. unfold active_registry in Hnone.
  rewrite Hnone. unfold lift.
  destruct (tree_map_only_args unwrap args) as [args'|e]; [| done].
  destruct kwargs as [kwargs|]; simpl.
  - by destruct (tree_map_only_kwargs unwrap kwargs).
  - done.
Qed.
End DispatchFurther.

(** X8.  On the fallback path, when some proxy among the positional or the
    keyword arguments has no component under its [source_field], dispatch
    raises [KeyError] and the operation is not called: the state is the one
    the import left, whatever calling the operation would have done.  For a
    single such proxy the error names its [source_field]. *)
Theorem dispatch_unregistered_missing_source {World}
    (call_op : Op → list Value → Dict.t Value → M World Value)
    (call_func : Callable → Op → list Value → Dict.t Value → M World Value)
    (import_ops : M World unit)
    (op : Op) (types : list string) (args : list Value)
    (kwargs : option (Dict.t Value)) (s s1 : State World) :
  import_ops s = (Ok tt, s1) →
  active_registry s1 !! op = None →
  (forallb sources_present args = false
   ∨ sources_present_items (default [] kwargs) = false →
   ∃ k, __torch_dispatch__ call_op call_func import_ops op types args kwargs s
        = (Raise (KeyError k), s1))
  ∧ (∀ p, Dict.get (metadata p) (source_field p) = None →
          __torch_dispatch__ call_op call_func import_ops op types
            [VTensor (Cached p)] kwargs s
          = (Raise (KeyError (source_field p)), s1)).
Proof.
  intros Himport Hnone. split.
  - intros Habsent.
    rewrite (dispatch_unregistered_steps _ _ _ _ _ _ _ _ _ Himport Hnone).
    destruct (forallb sources_present args) eqn:Hargs.
    + destruct Habsent as [|Hkwargs]; [done |].
      destruct (unwraps_to_total_args _ Hargs) as [args' Hargs'].
      rewrite (tree_map_only_args_unwraps _ _ Hargs').
      destruct (tree_map_only_kwargs_absent _ Hkwargs) as [k ->].
      by exists k.
    + destruct (tree_map_only_args_absent _ Hargs) as [k ->]. by exists k.
  - intros p Hp.
    rewrite (dispatch_unregistered_steps _ _ _ _ _ _ _ _ _ Himport Hnone).
    unfold tree_map_only_args. simpl. unfold unwrap.
    by rewrite (dict_getitem_None _ _ Hp).
Qed.

Lemma dispatch_unregistered_missing_source_witness :
  (∃ k, __torch_dispatch__ Sample.call_op Sample.call_func Sample.import_ops
          "aten.sin" [] [VInt 1]
          (Some [("other", VList [VTensor (Cached Sample.broken)])])
          Sample.s0
        = (Raise (KeyError k), Sample.s0))
  ∧ __torch_dispatch__ Sample.call_op Sample.call_func Sample.import_ops
      "aten.sin" [] [VTensor (Cached Sample.broken)]
      (Some [("other", VList [VTensor (Cached Sample.broken)])]) Sample.s0
    = (Raise (KeyError "values"), Sample.s0).
Proof.
  pose proof (dispatch_unregistered_missing_source Sample.call_op
                Sample.call_func Sample.import_ops "aten.sin" [] [VInt 1]
                (Some [("other", VList [VTensor (Cached Sample.broken)])])
                Sample.s0 Sample.s0 eq_refl eq_refl) as [Hany Hone].
  split.
  - apply Hany. right. vm_compute. reflexivity.
  - apply (Hone Sample.broken). vm_compute. reflexivity.
Defined.

(** X9.  On the fallback path, arguments without a proxy anywhere in them
    reach the operation exactly as they came in. *)
Theorem dispatch_unregistered_no_proxy {World}
    (call_op : Op → list Value → Dict.t Value → M World Value)
    (call_func : Callable → Op → list Value → Dict.t Value → M World Value)
    (import_ops : M World unit)
    (op : Op) (types : list string) (args : list Value)
    (kwargs : option (Dict.t Value)) (s s1 : State World) :
  import_ops s = (Ok tt, s1) →
  active_registry s1 !! op = None →
  forallb no_proxy args = true →
  no_proxy_items (default [] kwargs) = true →
  __torch_dispatch__ call_op call_func import_ops op types args kwargs s
  = call_op op args (default [] kwargs) s1.
Proof.
  intros Himport Hnone Hargs Hkwargs.
  rewrite (dispatch_unregistered_steps _ _ _ _ _ _ _ _ _ Himport Hnone).
  unfold tree_map_only_args, tree_map_only_kwargs.
  rewrite mapR_id.
  - rewrite mapR_id; [done |].
    apply forallb_true_Forall in Hkwargs.
    eapply Forall_impl; [exact Hkwargs |].
    intros [k v] Hv. by rewrite (tree_map_only_no_proxy _ _ Hv).
  - apply forallb_true_Forall in Hargs.
    eapply Forall_impl; [exact Hargs |].
    intros v Hv. by apply tree_map_only_no_proxy.
Qed.

Lemma dispatch_unregistered_no_proxy_witness :
  __torch_dispatch__ Sample.call_op Sample.call_func Sample.import_ops
    "aten.sin" [] [VTensor Sample.V; VList [VInt 1; VNone]]
    (Some [("out", VTensor Sample.O)]) Sample.s0
  = Sample.call_op "aten.sin" [VTensor Sample.V; VList [VInt 1; VNone]]
      [("out", VTensor Sample.O)] Sample.s0.
Proof.
  exact (dispatch_unregistered_no_proxy Sample.call_op Sample.call_func
           Sample.import_ops "aten.sin" []
           [VTensor Sample.V; VList [VInt 1; VNone]]
           (Some [("out", VTensor Sample.O)]) Sample.s0 Sample.s0
           eq_refl eq_refl eq_refl eq_refl).
Defined.

(** A successful walk keeps the number of positional arguments and the
    keyword names, whatever function is applied to the proxies. *)
Lemma tree_map_only_shape func (args args' : list Value)
    (kwargs kwargs' : Dict.t Value) :
  tree_map_only_args func args = Ok args' →
  tree_map_only_kwargs func kwargs = Ok kwargs' →
  length args' = length args ∧ Dict.keys kwargs' = Dict.keys kwargs.
Proof.
  intros Hargs%mapR_Ok_Forall2 Hkwargs%mapR_Ok_Forall2. split.
  - symmetry. by eapply Forall2_length.
  - unfold Dict.keys. induction Hkwargs as [|[k v] [k' v'] d d' Hkv _ IH];
      [done |].
    rewrite !fmap_cons. simpl. f_equal; [| exact IH].
    destruct (tree_map_only func v); simpl in Hkv; congruence.
Qed.

(** X10.  On the fallback path the operation is called with as many
    positional arguments as dispatch received and with the same keyword
    names in the same order: unwrapping replaces values and never adds,
    drops or renames an argument. *)
Theorem dispatch_unregistered_keeps_arity {World}
    (call_op : Op → list Value → Dict.t Value → M World Value)
    (call_func : Callable → Op → list Value → Dict.t Value → M World Value)
    (import_ops : M World unit)
    (op : Op) (types : list string) (args : list Value)
    (kwargs : option (Dict.t Value)) (s s1 : State World) :
  import_ops s = (Ok tt, s1) →
  active_registry s1 !! op = None →
  forallb sources_present args = true →
  sources_present_items (default [] kwargs) = true →
  ∃ args' kwargs',
    __torch_dispatch__ call_op call_func import_ops op types args kwargs s
    = call_op op args' kwargs' s1
    ∧ length args' = length args
    ∧ Dict.keys kwargs' = Dict.keys (default [] kwargs).
Proof.
  intros Himport Hnone Hargs Hkwargs.
  destruct (unwraps_to_total_args _ Hargs) as [args' Hargs'].
  destruct (unwraps_to_total_kwargs _ Hkwargs) as [kwargs' Hkwargs'].
  exists args', kwargs'. split.
  - by apply dispatch_unregistered_run.
  - apply (tree_map_only_shape unwrap).
    + by apply tree_map_only_args_unwraps.
    + by apply tree_map_only_kwargs_unwraps.
Qed.

Lemma dispatch_unregistered_keeps_arity_witness :
  ∃ args' kwargs',
    __torch_dispatch__ Sample.call_op Sample.call_func Sample.import_ops
      "aten.sin" [] [VTensor (Cached Sample.p); VInt 1]
      (Some [("other", VTensor (Cached Sample.p)); ("alpha", VInt 2)])
      Sample.s0
    = Sample.call_op "aten.sin" args' kwargs' Sample.s0
    ∧ length args' = length [VTensor (Cached Sample.p); VInt 1]
    ∧ Dict.keys kwargs'
      = Dict.keys
          (default []
             (Some [("other", VTensor (Cached Sample.p)); ("alpha", VInt 2)])).
Proof.
  refine (dispatch_unregistered_keeps_arity Sample.call_op Sample.call_func
            Sample.import_ops "aten.sin" []
            [VTensor (Cached Sample.p); VInt 1]
            (Some [("other", VTensor (Cached Sample.p)); ("alpha", VInt 2)])
            Sample.s0 Sample.s0 eq_refl _ _ _);
    vm_compute; reflexivity.
Defined.

(** * Further properties of the registry *)

(** X11.  Registering a callable for an operation and then dispatching that
    operation (with the overrides module already loaded, so that the import
    changes nothing) ends in the call of that callable on the operation and
    the arguments as they are; the entries of all other operations in the
    active registry are as before the registration. *)
Theorem register_then_dispatch {World}
    (call_op : Op → list Value → Dict.t Value → M World Value)
    (call_func : Callable → Op → list Value → Dict.t Value → M World Value)
    (import_ops : M World unit)
    (op : Op) (func : Callable) (types : list string) (args : list Value)
    (kwargs : option (Dict.t Value)) (s : State World) :
  import_ops (register_cached_tensor_func op func s).2
  = (Ok tt, (register_cached_tensor_func op func s).2) →
  (do! _ ← register_cached_tensor_func op func;
   __torch_dispatch__ call_op call_func import_ops op types args kwargs) s
  = call_func func op args (default [] kwargs)
      (register_cached_tensor_func op func s).2
  ∧ (∀ op', op' ≠ op →
       active_registry (register_cached_tensor_func op func s).2 !! op'
       = active_registry s !! op').
Proof.
  intros Himport. split.
  - unfold bind at 1. rewrite register_run in *.
    apply dispatch_registered_run; [exact Himport |].
    pose proof (register_lookup op func s) as Hlookup.
    by rewrite register_run in Hlookup.
  - intros op' Hne. rewrite register_run.
    unfold active_registry, registry_at. simpl.
    rewrite lookup_insert_eq. simpl. by rewrite lookup_insert_ne.
Qed.

Lemma register_then_dispatch_witness :
  (do! _ ← register_cached_tensor_func "aten.detach" "detach_impl";
   __torch_dispatch__ Sample.call_op Sample.call_func Sample.import_ops
     "aten.detach" [] [VTensor (Cached Sample.p)] None) Sample.s0
  = Sample.call_func "detach_impl" "aten.detach" [VTensor (Cached Sample.p)]
      (default [] None)
      (register_cached_tensor_func "aten.detach" "detach_impl" Sample.s0).2
  ∧ (∀ op', op' ≠ "aten.detach" →
       active_registry
         (register_cached_tensor_func "aten.detach" "detach_impl"
            Sample.s0).2 !! op'
       = active_registry Sample.s0 !! op').
Proof.
  exact (register_then_dispatch Sample.call_op Sample.call_func
           Sample.import_ops "aten.detach" "detach_impl" []
           [VTensor (Cached Sample.p)] None Sample.s0 eq_refl).
Defined.

(** X12.  Inside a scope, only the scope's dict decides the route.  When
    that dict has no entry for the operation, dispatch inside the scope
    takes the fallback path, also for an operation that has an override in
    the registry that was active outside: registries are swapped, not
    merged.  On the way out the outer registry is active again. *)
Theorem scope_hides_outer_overrides {World}
    (call_op : Op → list Value → Dict.t Value → M World Value)
    (call_func : Callable → Op → list Value → Dict.t Value → M World Value)
    (import_ops : M World unit)
    (R : loc) (op : Op) (types : list string) (args args' : list Value)
    (kwargs : option (Dict.t Value)) (kwargs' : Dict.t Value)
    (s : State World) :
  registry_at s R !! op = None →
  import_ops (with_global R s) = (Ok tt, with_global R s) →
  Forall2 unwraps_to args args' →
  Forall2 unwraps_to_items (default [] kwargs) kwargs' →
  set_func_registry R
    (__torch_dispatch__ call_op call_func import_ops op types args kwargs) s
  = ((call_op op args' kwargs' (with_global R s)).1,
     with_global (_func_registry s)
       (call_op op args' kwargs' (with_global R s)).2).
Proof.
  intros Hnone Himport Hargs Hkwargs. rewrite set_func_registry_run.
  by rewrite (dispatch_unregistered_run call_op call_func import_ops op types
                args kwargs args' kwargs' _ _ Himport Hnone Hargs Hkwargs).
Qed.

Lemma scope_hides_outer_overrides_witness :
  active_registry Sample.s2 !! "aten.detach" = Some "detach_impl"
  ∧ set_func_registry Sample.R
      (__torch_dispatch__ Sample.call_op Sample.call_func Sample.import_ops
         "aten.detach" [] [VTensor (Cached Sample.p)] None) Sample.s2
    = ((Sample.call_op "aten.detach" [VTensor Sample.V] []
          (with_global Sample.R Sample.s2)).1,
       with_global (_func_registry Sample.s2)
         (Sample.call_op "aten.detach" [VTensor Sample.V] []
            (with_global Sample.R Sample.s2)).2).
Proof.
  split; [vm_compute; reflexivity |].
  refine (scope_hides_outer_overrides Sample.call_op Sample.call_func
            Sample.import_ops Sample.R "aten.detach" []
            [VTensor (Cached Sample.p)] [VTensor Sample.V] None []
            Sample.s2 _ eq_refl _ _).
  - vm_compute; reflexivity.
  - constructor; [| constructor]. apply unwraps_proxy. reflexivity.
  - constructor.
Defined.

(** X13.  When the scope's dict has an entry for the operation, dispatch
    inside the scope calls that callable on the untouched arguments, also
    when the registry that was active outside has no entry for the
    operation; on the way out the outer registry is active again. *)
Theorem scope_supplies_overrides {World}
    (call_op : Op → list Value → Dict.t Value → M World Value)
    (call_func : Callable → Op → list Value → Dict.t Value → M World Value)
    (import_ops : M World unit)
    (R : loc) (op : Op) (func : Callable) (types : list string)
    (args : list Value) (kwargs : option (Dict.t Value)) (s : State World) :
  registry_at s R !! op = Some func →
  import_ops (with_global R s) = (Ok tt, with_global R s) →
  set_func_registry R
    (__torch_dispatch__ call_op call_func import_ops op types args kwargs) s
  = ((call_func func op args (default [] kwargs) (with_global R s)).1,
     with_global (_func_registry s)
       (call_func func op args (default [] kwargs) (with_global R s)).2).
Proof.
  intros Hfunc Himport. rewrite set_func_registry_run.
  by rewrite (dispatch_registered_run call_op call_func import_ops op types
                args kwargs func _ _ Himport Hfunc).
Qed.

Lemma scope_supplies_overrides_witness :
  active_registry Sample.s3 !! "aten.detach" = None
  ∧ set_func_registry Sample.R
      (__torch_dispatch__ Sample.call_op Sample.call_func Sample.import_ops
         "aten.detach" [] [VTensor (Cached Sample.p)] None) Sample.s3
    = ((Sample.call_func "detach_impl" "aten.detach"
          [VTensor (Cached Sample.p)] (default [] None)
          (with_global Sample.R Sample.s3)).1,
       with_global (_func_registry Sample.s3)
         (Sample.call_func "detach_impl" "aten.detach"
            [VTensor (Cached Sample.p)] (default [] None)
            (with_global Sample.R Sample.s3)).2).
Proof.
  split; [vm_compute; reflexivity |].
  refine (scope_supplies_overrides Sample.call_op Sample.call_func
            Sample.import_ops Sample.R "aten.detach" "detach_impl" []
            [VTensor (Cached Sample.p)] None Sample.s3 _ eq_refl).
  vm_compute; reflexivity.
Defined.

(** What a registration inside a scope leaves behind. *)
Lemma register_in_scope_run {World} (R : loc) (op : Op) (func : Callable)
    (s : State World) :
  set_func_registry R (register_cached_tensor_func op func) s
  = (Ok func,
     {| heap := <[R := <[op := func]> (registry_at s R)]> (heap s);
        _func_registry := _func_registry s;
        world := world s |}).
Proof. by rewrite set_func_registry_run, register_run. Qed.

(** X14.  A registration made inside a scope for a dict other than the
    outer registry goes into that dict and stays there: after the scope the
    outer registry is active with all its entries as before, the scope's
    dict holds the new entry, and a later scope for the same dict finds
    it. *)
Theorem register_in_scope_stays_in_scope {World} (R : loc) (op : Op)
    (func : Callable) (s : State World) :
  R ≠ _func_registry s →
  (set_func_registry R (register_cached_tensor_func op func) s).1 = Ok func
  ∧ _func_registry
      (set_func_registry R (register_cached_tensor_func op func) s).2
    = _func_registry s
  ∧ active_registry
      (set_func_registry R (register_cached_tensor_func op func) s).2
    = active_registry s
  ∧ registry_at
      (set_func_registry R (register_cached_tensor_func op func) s).2 R
    = <[op := func]> (registry_at s R)
  ∧ (set_func_registry R
       (do! registry ← get_global; deref registry)
       (set_func_registry R (register_cached_tensor_func op func) s).2).1
    = Ok (<[op := func]> (registry_at s R)).
Proof.
  intros Hne. rewrite register_in_scope_run, set_func_registry_run.
  split; [done |]. split; [done |]. split; [| split].
  - unfold active_registry, registry_at. simpl.
    by rewrite lookup_insert_ne.
  - unfold registry_at. simpl. by rewrite lookup_insert_eq.
  - unfold bind, get_global, deref. simpl.
    unfold registry_at. simpl. by rewrite lookup_insert_eq.
Qed.

Lemma register_in_scope_stays_in_scope_witness :
  (set_func_registry Sample.R
     (register_cached_tensor_func "aten.detach" "detach_impl") Sample.s1).1
  = Ok "detach_impl"
  ∧ _func_registry
      (set_func_registry Sample.R
         (register_cached_tensor_func "aten.detach" "detach_impl")
         Sample.s1).2
    = _func_registry Sample.s1
  ∧ active_registry
      (set_func_registry Sample.R
         (register_cached_tensor_func "aten.detach" "detach_impl")
         Sample.s1).2
    = active_registry Sample.s1
  ∧ registry_at
      (set_func_registry Sample.R
         (register_cached_tensor_func "aten.detach" "detach_impl")
         Sample.s1).2 Sample.R
    = <["aten.detach" := "detach_impl"]> (registry_at Sample.s1 Sample.R)
  ∧ (set_func_registry Sample.R
       (do! registry ← get_global; deref registry)
       (set_func_registry Sample.R
          (register_cached_tensor_func "aten.detach" "detach_impl")
          Sample.s1).2).1
    = Ok (<["aten.detach" := "detach_impl"]> (registry_at Sample.s1 Sample.R)).
Proof.
  refine (register_in_scope_stays_in_scope Sample.R "aten.detach"
            "detach_impl" Sample.s1 _).
  vm_compute. discriminate.
Defined.



(** * Nested proxies *)

(** X18.  Unwrapping goes one level deep.  On the fallback path a proxy
    whose source component is itself a proxy is replaced by that inner
    proxy, which reaches the operation as it is: its own components are not
    looked at, so that it may even lack its source without an error from
    dispatch. *)
Theorem dispatch_unwraps_one_level {World}
    (call_op : Op → list Value → Dict.t Value → M World Value)
    (call_func : Callable → Op → list Value → Dict.t Value → M World Value)
    (import_ops : M World unit)
    (op : Op) (types : list string) (p q : Proxy)
    (kwargs : option (Dict.t Value)) (kwargs' : Dict.t Value)
    (s s1 : State World) :
  import_ops s = (Ok tt, s1) →
  active_registry s1 !! op = None →
  Dict.get (metadata p) (source_field p) = Some (Cached q) →
  Forall2 unwraps_to_items (default [] kwargs) kwargs' →
  __torch_dispatch__ call_op call_func import_ops op types
    [VTensor (Cached p)] kwargs s
  = call_op op [VTensor (Cached q)] kwargs' s1.
Proof.
  intros Himport Hnone Hq Hkwargs.
  apply dispatch_unregistered_run; [done | done | | done].
  constructor; [by apply unwraps_proxy | constructor].
Qed.

Lemma dispatch_unwraps_one_level_witness :
  sources_present (VTensor (Cached Sample.broken)) = false
  ∧ __torch_dispatch__ Sample.call_op Sample.call_func Sample.import_ops
      "aten.sin" [] [VTensor (Cached Sample.outer)] None Sample.s0
    = Sample.call_op "aten.sin" [VTensor (Cached Sample.broken)] [] Sample.s0.
Proof.
  split; [vm_compute; reflexivity |].
  refine (dispatch_unwraps_one_level Sample.call_op Sample.call_func
            Sample.import_ops "aten.sin" [] Sample.outer Sample.broken None []
            Sample.s0 Sample.s0 eq_refl _ eq_refl _).
  - vm_compute; reflexivity.
  - constructor.
Defined.
